(** * dnscrypt-proxy: admission control and the per-query pipeline

    A shallow embedding of the [Proxy] methods of [dnscrypt-proxy/main.go]
    ([StartProxy], [udpListener], [tcpListener], [exchangeWithUDPServer],
    [exchangeWithTCPServer], [clientsCountInc], [clientsCountDec] and
    [processIncomingQuery]) together with the properties the specification
    states about them.  Line numbers are those of that file. *)

From Stdlib Require Import ZArith Lia List Bool.
From Stdlib Require Import Strings.Ascii Strings.String Strings.Byte.
From stdpp Require Import base list gmap strings.
Import ListNotations.

Local Open Scope Z_scope.

(** ** Machine integers *)

(** [uint32] values are integers in [0, 2^32); arithmetic wraps around. *)
Definition uint32_max : Z := 2 ^ 32 - 1.
Definition wrap32 (z : Z) : Z := z mod 2 ^ 32.
Definition is_uint32 (z : Z) : Prop := 0 <= z <= uint32_max.

(** ** The admission counter ([clientsCount], [maxClients]) *)

Module Admission.

(** Both loops read the counter, decide, and then attempt a
    compare-and-swap against the value they read.  Another goroutine can
    run between the read and the compare-and-swap, so a loop is modelled by
    its two program points. *)
Inductive LoopPC : Type :=
| AtLoad                 (* top of the [for]: about to read proxy.clientsCount *)
| AtCas (count : Z).     (* [count] was read; about to CompareAndSwapUint32 *)

(** [atomic.CompareAndSwapUint32(&proxy.clientsCount, old, new)]. *)
Definition CompareAndSwapUint32 (clientsCount old new : Z) : Z * bool :=
  if clientsCount =? old then (wrap32 new, true) else (clientsCount, false).

(** One atomic step of [clientsCountInc].  The right injection is the
    value the function returns. *)
Definition clientsCountInc (maxClients clientsCount : Z) (pc : LoopPC)
  : Z * (LoopPC + bool) :=
  match pc with
  | AtLoad =>
      let count := clientsCount in
      if maxClients <=? count then (clientsCount, inr false)
      else (clientsCount, inl (AtCas count))
  | AtCas count =>
      let '(c, swapped) := CompareAndSwapUint32 clientsCount count (count + 1) in
      if swapped then (c, inr true) else (c, inl AtLoad)
  end.

(** One atomic step of [clientsCountDec]; [None] when the loop has been
    left through [break]. *)
Definition clientsCountDec (clientsCount : Z) (pc : LoopPC)
  : Z * option LoopPC :=
  match pc with
  | AtLoad =>
      let count := clientsCount in
      if count =? 0 then (clientsCount, None)
      else (clientsCount, Some (AtCas count))
  | AtCas count =>
      let '(c, swapped) := CompareAndSwapUint32 clientsCount count (count - 1) in
      if swapped then (c, None) else (c, Some AtLoad)
  end.

(** Running [clientsCountDec] with no other goroutine in between: the
    final counter, or [None] when [fuel] steps were not enough. *)
Fixpoint clientsCountDec_alone (fuel : nat) (clientsCount : Z) (pc : LoopPC)
  : option Z :=
  match fuel with
  | O => None
  | S fuel' =>
      match clientsCountDec clientsCount pc with
      | (c, None) => Some c
      | (c, Some pc') => clientsCountDec_alone fuel' c pc'
      end
  end.

(** The goroutine spawned per datagram ([udpListener]) or per accepted
    connection ([tcpListener]). *)
Inductive TaskKind : Type := UDPTask | TCPTask.

Inductive TaskPC : Type :=
| InInc (pc : LoopPC)    (* inside proxy.clientsCountInc() *)
| Rejected               (* it returned false: warning logged, task returned *)
| Reading                (* TCP: SetDeadline done, ReadPrefixed pending *)
| Processing             (* inside proxy.processIncomingQuery(...) *)
| InDec (pc : LoopPC)    (* inside the deferred proxy.clientsCountDec() *)
| Done.                  (* task returned *)

Abbreviation Task := (TaskKind * TaskPC)%type.

(** A task is in flight from the successful [clientsCountInc] until its
    deferred [clientsCountDec] has returned. *)
Definition holds_reservation (pc : TaskPC) : bool :=
  match pc with
  | Reading | Processing | InDec _ => true
  | InInc _ | Rejected | Done => false
  end.

(** One atomic step of a task.  [io] is the outcome of the pending
    blocking call: for [Reading], whether [ReadPrefixed] gave a packet of
    at least [MinDNSPacketSize] bytes. *)
Definition task_step (maxClients clientsCount : Z) (io : bool) (t : Task)
  : Z * Task :=
  let '(kind, pc) := t in
  match pc with
  | InInc l =>
      match clientsCountInc maxClients clientsCount l with
      | (c, inl l') => (c, (kind, InInc l'))
      | (c, inr false) => (c, (kind, Rejected))
      | (c, inr true) =>
          (c, (kind, match kind with UDPTask => Processing | TCPTask => Reading end))
      end
  | Reading => (clientsCount, (kind, if io then Processing else InDec AtLoad))
  | Processing => (clientsCount, (kind, InDec AtLoad))
  | InDec l =>
      match clientsCountDec clientsCount l with
      | (c, Some l') => (c, (kind, InDec l'))
      | (c, None) => (c, (kind, Done))
      end
  | Rejected | Done => (clientsCount, t)
  end.

(** The shared state: the counter and the pool of goroutines. *)
Record State : Type := mkState { clientsCount : Z; tasks : list Task }.

(** What the scheduler can do next: a listener spawns a task, or task
    number [i] takes one atomic step. *)
Inductive Action : Type :=
| Spawn (kind : TaskKind)
| Step (i : nat) (io : bool).

Definition exec (maxClients : Z) (s : State) (a : Action) : State :=
  match a with
  | Spawn kind => mkState (clientsCount s) (tasks s ++ [(kind, InInc AtLoad)])
  | Step i io =>
      match tasks s !! i with
      | None => s
      | Some t =>
          let '(c, t') := task_step maxClients (clientsCount s) io t in
          mkState c (<[i := t']> (tasks s))
      end
  end.

Definition init : State := mkState 0 [].

Definition run_from (maxClients : Z) (s : State) (sched : list Action) : State :=
  fold_left (exec maxClients) sched s.

(** An execution is a schedule run from the initial state. *)
Definition run (maxClients : Z) (sched : list Action) : State :=
  run_from maxClients init sched.

Definition weight (pc : TaskPC) : Z := if holds_reservation pc then 1 else 0.

(** Number of tasks currently holding a reservation. *)
Fixpoint in_flight (ts : list Task) : Z :=
  match ts with
  | [] => 0
  | (_, pc) :: ts' => weight pc + in_flight ts'
  end.

(** Upper bound on the steps a task that holds a reservation still needs
    to return when it runs without interference. *)
Definition steps_to_exit (clientsCount : Z) (pc : TaskPC) : nat :=
  match pc with
  | Reading => 4
  | Processing => 3
  | InDec AtLoad => 2
  | InDec (AtCas count) => if count =? clientsCount then 1 else 3
  | InInc _ | Rejected | Done => 0
  end.

(** What a task remembers from its last read of the counter. *)
Definition task_ok (maxClients : Z) (t : Task) : Prop :=
  match snd t with
  | InInc (AtCas count) => 0 <= count < maxClients
  | InDec (AtCas count) => 0 < count
  | _ => True
  end.

Record Inv (maxClients : Z) (s : State) : Prop := mkInv {
  inv_count : clientsCount s = in_flight (tasks s);
  inv_bound : clientsCount s <= maxClients;
  inv_tasks : Forall (task_ok maxClients) (tasks s)
}.

(** Running [clientsCountInc] with no other goroutine in between: the
    final counter and the value returned, or [None] when [fuel] steps were
    not enough. *)
Fixpoint clientsCountInc_alone (fuel : nat) (maxClients clientsCount : Z)
    (pc : LoopPC) : option (Z * bool) :=
  match fuel with
  | O => None
  | S fuel' =>
      match clientsCountInc maxClients clientsCount pc with
      | (c, inr b) => Some (c, b)
      | (c, inl pc') => clientsCountInc_alone fuel' maxClients c pc'
      end
  end.

(** A task that is still inside [clientsCountInc]. *)
Definition deciding (pc : TaskPC) : bool :=
  match pc with
  | InInc _ => true
  | _ => false
  end.

End Admission.

(** ** The per-query pipeline ([processIncomingQuery]) *)

Module Pipeline.

(** [[]byte]. *)
Abbreviation bytes := (list byte).

Definition len {A : Type} (l : list A) : Z := Z.of_nat (length l).

(** Modelled from the spec: the type [StampProtoType] is declared outside
    [main.go]; the spec gives the protocol variants DNSCrypt and DoH, and
    [processIncomingQuery] has a third branch for any other value. *)
Inductive StampProtoType : Type :=
| StampProtoTypeDNSCrypt
| StampProtoTypeDoH
| StampProtoTypeOther.

(** Modelled from the spec: the type [PluginsAction] is declared outside
    [main.go]; the spec gives the terminal actions Forward, Drop and
    Synth. *)
Inductive PluginsAction : Type :=
| PluginsActionForward
| PluginsActionDrop
| PluginsActionSynth.

Definition PluginsAction_eqb (a b : PluginsAction) : bool :=
  match a, b with
  | PluginsActionForward, PluginsActionForward
  | PluginsActionDrop, PluginsActionDrop
  | PluginsActionSynth, PluginsActionSynth => true
  | _, _ => false
  end.

(** The fields of [ServerInfo] that [main.go] reads. *)
Record ServerInfo : Type := mkServerInfo {
  Proto : StampProtoType;
  UDPAddr : string;
  TCPAddr : string;
  URL : string;
  HostName : string;
  Timeout : Z
}.

(** What [client.Do(req)] gives back: an error or not, and a response or
    nil; the response carries its status code and what [ioutil.ReadAll]
    reads from its body ([None]: the read fails). *)
Record HTTPResponse : Type := mkHTTPResponse {
  StatusCode : Z;
  Body : option bytes
}.

Record HTTPResult : Type := mkHTTPResult {
  httpErr : bool;
  httpResp : option HTTPResponse
}.

(** Everything [main.go] takes from elsewhere: the packet-size constants,
    the helpers of the other files of the package, and the outcomes of the
    calls that leave the process.  [Msg] stands for [dns.Msg].  A function
    returning [(value, error)] returns [option value]. *)
Record Env : Type := mkEnv {
  Msg : Type;
  MinDNSPacketSize : Z;
  MaxDNSPacketSize : Z;
  MaxDNSUDPPacketSize : Z;
  ResponseOverhead : Z;
  (* pluginsState.ApplyQueryPlugins: the rewritten query, and the action and
     the synthesized response it leaves in pluginsState *)
  ApplyQueryPlugins : string -> bytes -> bytes * PluginsAction * option Msg;
  ApplyResponsePlugins : bytes -> bytes;
  PackBuffer : Msg -> option bytes;
  Encrypt : ServerInfo -> bytes -> string -> option (bytes * bytes);
  Decrypt : ServerInfo -> bytes -> bytes -> option bytes;
  PrefixWithSize : bytes -> option bytes;
  TruncatedResponse : bytes -> option bytes;
  HasTCFlag : bytes -> bool;
  (* the network *)
  DialUDP : ServerInfo -> bool;
  UDPRead : ServerInfo -> bytes -> option bytes;
  DialTCP : ServerInfo -> bool;
  ReadPrefixed : ServerInfo -> bytes -> option bytes;
  HTTPDo : ServerInfo -> bytes -> HTTPResult
}.

(** What a query does to the world, in order. *)
Inductive Event : Type :=
| EvApplyQueryPlugins (clientProto : string) (query : bytes)
| EvPackBuffer
| EvEncrypt (query : bytes) (serverProto : string)
| EvNoticeBegin
| EvNoticeFailure
| EvNoticeSuccess
| EvDialUDP
| EvDialTCP
| EvUpstreamWrite (packet : bytes)
| EvUpstreamRead
| EvUpstreamClose
| EvDecrypt
| EvHTTPPost (body : bytes)
| EvReadBody
| EvApplyResponsePlugins (response : bytes)
| EvWriteTo (packet : bytes)      (* clientPc.(net.PacketConn).WriteTo *)
| EvWrite (packet : bytes)        (* clientPc.Write *)
| EvBlindAdjust                   (* questionSizeEstimator.blindAdjust() *)
| EvAdjust (size : Z)             (* questionSizeEstimator.adjust(size) *)
| EvFatal (msg : string)          (* dlog.Fatal: the process exits *)
| EvWarnTooMany                   (* dlog.Warnf("Too many connections ...") *)
| EvSetDeadline
| EvGetOne                        (* proxy.serversInfo.getOne() *)
| EvClientsCountDec               (* the deferred proxy.clientsCountDec() *)
| EvClientClose.                  (* the deferred clientPc.Close() *)

Abbreviation Trace := (list Event).

(** A computation inside [processIncomingQuery]: the events so far and
    either a value to go on with or [None] after a [return]. *)
Definition Proc (A : Type) : Type := Trace * option A.

Definition ret {A : Type} (a : A) : Proc A := ([], Some a).

Definition stop {A : Type} : Proc A := ([], None).

Definition emit (ev : Event) : Proc unit := ([ev], Some tt).

Definition bind {A B : Type} (m : Proc A) (f : A -> Proc B) : Proc B :=
  match m with
  | (t, None) => (t, None)
  | (t, Some a) => let '(t', r) := f a in (t ++ t', r)
  end.

(** [Proc] with stdpp's monad notations [x ← m; k] and [m ;; k]. *)
#[global] Instance Proc_ret : MRet Proc := @ret.
#[global] Instance Proc_bind : MBind Proc := fun A B f m => bind m f.

(** A helper that performs events and returns [(value, error)]. *)
Definition call {A : Type} (r : Trace * option A) : Proc (option A) :=
  (fst r, Some (snd r)).

(** [exchangeWithUDPServer]: the events and the decrypted response, or
    [None] for the error it returns. *)
Definition exchangeWithUDPServer (e : Env) (serverInfo : ServerInfo)
    (encryptedQuery clientNonce : bytes) : Trace * option bytes :=
  if negb (DialUDP e serverInfo) then ([EvDialUDP], None)
  else
    let io := [EvDialUDP; EvUpstreamWrite encryptedQuery; EvUpstreamRead;
               EvUpstreamClose] in
    match UDPRead e serverInfo encryptedQuery with
    | None => (io, None)
    | Some datagram =>
        let encryptedResponse := take (Z.to_nat (MaxDNSPacketSize e)) datagram in
        (io ++ [EvDecrypt], Decrypt e serverInfo encryptedResponse clientNonce)
    end.

(** [exchangeWithTCPServer]. *)
Definition exchangeWithTCPServer (e : Env) (serverInfo : ServerInfo)
    (encryptedQuery clientNonce : bytes) : Trace * option bytes :=
  if negb (DialTCP e serverInfo) then ([EvDialTCP], None)
  else
    match PrefixWithSize e encryptedQuery with
    | None => ([EvDialTCP], None)
    | Some encryptedQuery' =>
        let io := [EvDialTCP; EvUpstreamWrite encryptedQuery'; EvUpstreamRead;
                   EvUpstreamClose] in
        match ReadPrefixed e serverInfo encryptedQuery' with
        | None => (io, None)
        | Some encryptedResponse =>
            (io ++ [EvDecrypt], Decrypt e serverInfo encryptedResponse clientNonce)
        end
    end.

(** Lines 410-420: what the query plugins decided.  The result is the
    local [response]; the outer [err] is nil whenever this part does not
    return. *)
Definition synthStage (e : Env) (action : PluginsAction)
    (synthResponse : option (Msg e)) : Proc bytes :=
  if negb (PluginsAction_eqb action PluginsActionForward) then
    response ← match synthResponse with
                | Some m =>
                    emit EvPackBuffer ;;
                    match PackBuffer e m with
                    | None => stop
                    | Some packed => mret packed
                    end
                | None => mret []
                end;
    if PluginsAction_eqb action PluginsActionDrop then stop else mret response
  else mret [].

(** Lines 422-465: the exchange with the upstream server. *)
Definition upstreamStage (e : Env) (serverInfo : ServerInfo)
    (serverProto : string) (query : bytes) : Proc bytes :=
  match Proto serverInfo with
  | StampProtoTypeDNSCrypt =>
      emit (EvEncrypt query serverProto) ;;
      match Encrypt e serverInfo query serverProto with
      | None => stop
      | Some (encryptedQuery, clientNonce) =>
          emit EvNoticeBegin ;;
          r ← call (if String.eqb serverProto "udp"
                     then exchangeWithUDPServer e serverInfo encryptedQuery clientNonce
                     else exchangeWithTCPServer e serverInfo encryptedQuery clientNonce);
          match r with
          | None => emit EvNoticeFailure ;; stop
          | Some response => mret response
          end
      end
  | StampProtoTypeDoH =>
      emit (EvHTTPPost query) ;;
      let res := HTTPDo e serverInfo query in
      match httpErr res, httpResp res with
      | false, Some resp =>
          if (StatusCode resp <? 200) || (299 <? StatusCode resp) then stop
          else
            emit EvReadBody ;;
            match Body resp with
            | None => stop
            | Some response => mret response
            end
      | _, _ => stop
      end
  | StampProtoTypeOther => emit (EvFatal "Unsupported protocol") ;; stop
  end.

(** Lines 406-471: from the query to the response that is to be sent. *)
Definition queryStage (e : Env) (serverInfo : ServerInfo)
    (clientProto serverProto : string) (query : bytes) : Proc bytes :=
  let '(query', action, synthResponse) := ApplyQueryPlugins e clientProto query in
  emit (EvApplyQueryPlugins clientProto query) ;;
  let err := false in
  response ← synthStage e action synthResponse;
  if len response =? 0 then
    response ← upstreamStage e serverInfo serverProto query';
    if err then emit EvNoticeFailure ;; stop
    else
      emit (EvApplyResponsePlugins response) ;;
      mret (ApplyResponsePlugins e response)
  else mret response.

(** Lines 472-497: size policy, emission, estimator and health update. *)
Definition replyStage (e : Env) (clientProto : string) (response : bytes)
  : Proc unit :=
  if (len response <? MinDNSPacketSize e) || (MaxDNSPacketSize e <? len response)
  then emit EvNoticeFailure ;; stop
  else
    (if String.eqb clientProto "udp" then
       response ← (if MaxDNSUDPPacketSize e <? len response then
                      match TruncatedResponse e response with
                      | None => stop
                      | Some shell => mret shell
                      end
                    else mret response);
       emit (EvWriteTo response) ;;
       if HasTCFlag e response then emit EvBlindAdjust
       else emit (EvAdjust (ResponseOverhead e + len response))
     else
       match PrefixWithSize e response with
       | None => emit EvNoticeFailure ;; stop
       | Some response => emit (EvWrite response)
       end) ;;
    emit EvNoticeSuccess.

(** [processIncomingQuery]; a nil [serverInfo] is [None]. *)
Definition processIncomingQuery (e : Env) (serverInfo : option ServerInfo)
    (clientProto serverProto : string) (query : bytes) : Trace :=
  match serverInfo with
  | None => []
  | Some serverInfo =>
      if len query <? MinDNSPacketSize e then []
      else
        fst (response ← queryStage e serverInfo clientProto serverProto query;
             replyStage e clientProto response)
  end.

(** *** Reading traces *)

(** A packet written to the client socket. *)
Definition is_client_write (ev : Event) : bool :=
  match ev with
  | EvWriteTo _ | EvWrite _ => true
  | _ => false
  end.

(** [noticeBegin], [noticeFailure] or [noticeSuccess] on the server. *)
Definition is_health_update (ev : Event) : bool :=
  match ev with
  | EvNoticeBegin | EvNoticeFailure | EvNoticeSuccess => true
  | _ => false
  end.

(** Anything done towards the upstream server. *)
Definition is_upstream_contact (ev : Event) : bool :=
  match ev with
  | EvEncrypt _ _ | EvNoticeBegin | EvDialUDP | EvDialTCP | EvUpstreamWrite _
  | EvUpstreamRead | EvUpstreamClose | EvDecrypt | EvHTTPPost _ | EvReadBody => true
  | _ => false
  end.

Definition is_response_plugin_call (ev : Event) : bool :=
  match ev with
  | EvApplyResponsePlugins _ => true
  | _ => false
  end.

Definition is_estimator_update (ev : Event) : bool :=
  match ev with
  | EvBlindAdjust | EvAdjust _ => true
  | _ => false
  end.

(** No event of the trace is of the given kind. *)
Definition none_of (kind : Event -> bool) (t : Trace) : Prop :=
  Forall (fun ev => kind ev = false) t.

(** An event that writes nothing to the client, leaves the estimator alone
    and is not [noticeSuccess]. *)
Definition quiet (ev : Event) : Prop :=
  is_client_write ev = false /\ is_estimator_update ev = false /\
  ev <> EvNoticeSuccess.

(** Lines 477-482: the packet a UDP client gets for a response of
    admissible size. *)
Definition udpPacket (e : Env) (response : bytes) : option bytes :=
  if MaxDNSUDPPacketSize e <? len response then TruncatedResponse e response
  else Some response.

(** The exchange [processIncomingQuery] runs for the given [serverProto]. *)
Definition exchange (e : Env) (serverInfo : ServerInfo) (serverProto : string)
    (encryptedQuery clientNonce : bytes) : Trace * option bytes :=
  if String.eqb serverProto "udp"
  then exchangeWithUDPServer e serverInfo encryptedQuery clientNonce
  else exchangeWithTCPServer e serverInfo encryptedQuery clientNonce.

(** A DoH exchange without a usable response: [client.Do] gave an error,
    no response, or a status outside 200..299. *)
Definition dohFailed (res : HTTPResult) : bool :=
  match httpErr res, httpResp res with
  | false, Some resp => (StatusCode resp <? 200) || (299 <? StatusCode resp)
  | _, _ => true
  end.

(** *** The tasks the listeners spawn *)

Definition is_fatal (ev : Event) : bool :=
  match ev with EvFatal _ => true | _ => false end.

(** Whether the process has exited through [dlog.Fatal]: after that
    nothing runs any more, deferred calls included. *)
Definition exited (t : Trace) : bool := existsb is_fatal t.

(** The goroutine of [udpListener] (lines 289-296).  [admitted] is what
    [clientsCountInc] returned and [getOne] what [serversInfo.getOne]
    returns.  The deferred [clientsCountDec] runs when the function
    returns, not when the process exits. *)
Definition udpTask (e : Env) (admitted : bool) (getOne : option ServerInfo)
    (mainProto : string) (packet : bytes) : Trace :=
  if negb admitted then [EvWarnTooMany]
  else
    let body := EvGetOne :: processIncomingQuery e getOne "udp" mainProto packet in
    if exited body then body else body ++ [EvClientsCountDec].

(** The goroutine of [tcpListener] (lines 317-331).  [read] is what
    [ReadPrefixed] returns on the client connection.  The deferred
    [clientsCountDec] and [clientPc.Close] run, in this order, when the
    function returns, not when the process exits. *)
Definition tcpTask (e : Env) (admitted : bool) (read : option bytes)
    (getOne : option ServerInfo) : Trace :=
  if negb admitted then [EvWarnTooMany; EvClientClose]
  else
    let body :=
      EvSetDeadline ::
      match read with
      | None => []
      | Some packet =>
          if len packet <? MinDNSPacketSize e then []
          else EvGetOne :: processIncomingQuery e getOne "tcp" "tcp" packet
      end in
    if exited body then body else body ++ [EvClientsCountDec; EvClientClose].

(** *** The listener loops *)

Inductive LoopStatus : Type :=
| Returned     (* the function returned; its deferred Close has run *)
| Looping.     (* the loop is at the top of a further iteration *)

(** [udpListener] (lines 280-298) fed with the successive results of
    [clientPc.ReadFrom] ([None]: an error): the packets handed to tasks and
    where the loop is once the results are used up. *)
Fixpoint udpListener (e : Env) (reads : list (option bytes))
  : list bytes * LoopStatus :=
  match reads with
  | [] => ([], Looping)
  | None :: _ => ([], Returned)
  | Some datagram :: reads' =>
      let packet := take (Z.to_nat (MaxDNSPacketSize e - 1)) datagram in
      let '(packets, status) := udpListener e reads' in
      (packet :: packets, status)
  end.

(** [tcpListener] (lines 310-333) fed with the successive results of
    [acceptPc.Accept] ([None]: an error): the connections handed to tasks
    and where the loop is once the results are used up. *)
Fixpoint tcpListener {Conn : Type} (accepts : list (option Conn))
  : list Conn * LoopStatus :=
  match accepts with
  | [] => ([], Looping)
  | None :: accepts' => tcpListener accepts'
  | Some clientPc :: accepts' =>
      let '(conns, status) := tcpListener accepts' in
      (clientPc :: conns, status)
  end.

(** *** DNS wire helpers *)

Definition byte_lor (b : byte) (mask : N) : byte :=
  match Byte.of_N (N.lor (Byte.to_N b) mask) with
  | Some b' => b'
  | None => b
  end.

(** Modelled from the spec: [HasTCFlag] is defined outside [main.go].  The
    TC flag is the DNS truncation flag: bit 0x02 of the third byte of
    the header. *)
Definition specHasTCFlag (packet : bytes) : bool :=
  match packet with
  | _ :: _ :: flags :: _ => N.testbit (Byte.to_N flags) 1
  | _ => false
  end.

(** The answer count of a packet: the big-endian ANCOUNT field at bytes 6
    and 7 of the header. *)
Definition answerCount (packet : bytes) : option N :=
  match packet with
  | _ :: _ :: _ :: _ :: _ :: _ :: an0 :: an1 :: _ =>
      Some (256 * Byte.to_N an0 + Byte.to_N an1)%N
  | _ => None
  end.

(** Modelled from the spec: [TruncatedResponse] is defined outside
    [main.go].  The spec describes its result as a truncated shell with the
    TC bit set and no answers, and nothing more: the model keeps the
    twelve-byte header of the response with the TC bit set and every record
    count cleared, and fails on a packet that has no complete header. *)
Definition specTruncatedResponse (packet : bytes) : option bytes :=
  match packet with
  | id0 :: id1 :: flags0 :: flags1 :: _ :: _ :: _ :: _ :: _ :: _ :: _ :: _ :: _ =>
      Some [id0; id1; byte_lor flags0 2; flags1;
            x00; x00; x00; x00; x00; x00; x00; x00]
  | _ => None
  end.

(** Modelled from the spec: [PrefixWithSize] is defined outside [main.go].
    TCP uses a two-byte big-endian length prefix. *)
Definition specPrefixWithSize (packet : bytes) : option bytes :=
  let n := N.of_nat (length packet) in
  if (65535 <? n)%N then None
  else
    match Byte.of_N (n / 256), Byte.of_N (n mod 256) with
    | Some hi, Some lo => Some (hi :: lo :: packet)
    | _, _ => None
    end.

(** An environment with the wire helpers as modelled from the spec. *)
Definition withSpecCodec (e : Env) : Env :=
  {| Msg := Msg e;
     MinDNSPacketSize := MinDNSPacketSize e;
     MaxDNSPacketSize := MaxDNSPacketSize e;
     MaxDNSUDPPacketSize := MaxDNSUDPPacketSize e;
     ResponseOverhead := ResponseOverhead e;
     ApplyQueryPlugins := ApplyQueryPlugins e;
     ApplyResponsePlugins := ApplyResponsePlugins e;
     PackBuffer := PackBuffer e;
     Encrypt := Encrypt e;
     Decrypt := Decrypt e;
     PrefixWithSize := specPrefixWithSize;
     TruncatedResponse := specTruncatedResponse;
     HasTCFlag := specHasTCFlag;
     DialUDP := DialUDP e;
     UDPRead := UDPRead e;
     DialTCP := DialTCP e;
     ReadPrefixed := ReadPrefixed e;
     HTTPDo := HTTPDo e |}.

(** *** A concrete environment for examples

    Packet sizes 17, 4096 and 1252, a plugin chain that always answers
    [action] and [synth], an [Encrypt] that succeeds or not, and an upstream
    that answers [upstream] to everything ([None]: no answer). *)
Definition exampleEnv (action : PluginsAction) (synth : option bytes)
    (encryptOK : bool) (upstream : option bytes) : Env :=
  {| Msg := bytes;
     MinDNSPacketSize := 17;
     MaxDNSPacketSize := 4096;
     MaxDNSUDPPacketSize := 1252;
     ResponseOverhead := 48;
     ApplyQueryPlugins := fun _ query => (query, action, synth);
     ApplyResponsePlugins := fun response => response;
     PackBuffer := fun m => Some m;
     Encrypt := fun _ query _ => if encryptOK then Some (query, []) else None;
     Decrypt := fun _ response _ => Some response;
     PrefixWithSize := specPrefixWithSize;
     TruncatedResponse := specTruncatedResponse;
     HasTCFlag := specHasTCFlag;
     DialUDP := fun _ => true;
     UDPRead := fun _ _ => upstream;
     DialTCP := fun _ => true;
     ReadPrefixed := fun _ _ => upstream;
     HTTPDo := fun _ _ =>
       match upstream with
       | Some body => mkHTTPResult false (Some (mkHTTPResponse 200 (Some body)))
       | None => mkHTTPResult true None
       end |}.

Definition exampleServer (proto : StampProtoType) : ServerInfo :=
  mkServerInfo proto "192.0.2.1:443" "192.0.2.1:443"
               "https://dns.example/dns-query" "dns.example" 2500.

(** A packet of [n] zero bytes after a header with the given flag byte. *)
Definition examplePacket (flags : byte) (n : nat) : bytes :=
  [x12; x34; flags; x00; x00; x01; x00; x02; x00; x00; x00; x00]
  ++ repeat x00 n.

Definition exampleQuery : bytes := examplePacket x01 10.

(** The upstream answers with a 14-byte packet. *)
Definition envShortReply : Env :=
  exampleEnv PluginsActionForward None true (Some (examplePacket x81 2)).

(** The upstream answers with a 20-byte packet. *)
Definition envSmallReply : Env :=
  exampleEnv PluginsActionForward None true (Some (examplePacket x81 8)).

(** The upstream answers with a 1312-byte packet. *)
Definition envLargeReply : Env :=
  exampleEnv PluginsActionForward None true (Some (examplePacket x81 1300)).

(** [Encrypt] fails. *)
Definition envEncryptFails : Env :=
  exampleEnv PluginsActionForward None false None.

(** The upstream does not answer. *)
Definition envNoReply : Env :=
  exampleEnv PluginsActionForward None true None.

(** The query plugins synthesize a 20-byte response. *)
Definition envSynth : Env :=
  exampleEnv PluginsActionSynth (Some (examplePacket x81 8)) true None.

(** *** Counting events *)

Definition count_events (kind : Event -> bool) (t : Trace) : nat :=
  length (List.filter kind t).

Definition is_notice_begin (ev : Event) : bool :=
  match ev with EvNoticeBegin => true | _ => false end.

(** [noticeFailure] or [noticeSuccess]: the verdict on the server. *)
Definition is_verdict (ev : Event) : bool :=
  match ev with
  | EvNoticeFailure | EvNoticeSuccess => true
  | _ => false
  end.

Definition is_notice_success (ev : Event) : bool :=
  match ev with EvNoticeSuccess => true | _ => false end.

(** The events of the listener tasks, which [processIncomingQuery] itself
    never performs. *)
Definition is_task_event (ev : Event) : bool :=
  match ev with
  | EvWarnTooMany | EvSetDeadline | EvGetOne | EvClientsCountDec
  | EvClientClose => true
  | _ => false
  end.

Definition is_clientsCountDec (ev : Event) : bool :=
  match ev with EvClientsCountDec => true | _ => false end.

Definition is_client_close (ev : Event) : bool :=
  match ev with EvClientClose => true | _ => false end.

Definition is_upstream_close (ev : Event) : bool :=
  match ev with EvUpstreamClose => true | _ => false end.

(** What only a UDP exchange or a UDP client can cause. *)
Definition is_udp_only (ev : Event) : bool :=
  match ev with
  | EvDialUDP | EvWriteTo _ | EvBlindAdjust | EvAdjust _ => true
  | _ => false
  end.

(** The query as the query plugins rewrote it. *)
Definition rewrittenQuery (e : Env) (clientProto : string) (query : bytes)
  : bytes :=
  fst (fst (ApplyQueryPlugins e clientProto query)).

(** The query handed to [Encrypt] or posted over HTTPS, if the event is one
    of these. *)
Definition upstream_payload (ev : Event) : option bytes :=
  match ev with
  | EvEncrypt query _ => Some query
  | EvHTTPPost body => Some body
  | _ => None
  end.

(** What only an exchange with a DNSCrypt server does. *)
Definition is_dnscrypt_exchange (ev : Event) : bool :=
  match ev with
  | EvEncrypt _ _ | EvNoticeBegin | EvDialUDP | EvDialTCP | EvUpstreamWrite _
  | EvUpstreamRead | EvUpstreamClose | EvDecrypt => true
  | _ => false
  end.

(** What only an exchange with a DoH server does. *)
Definition is_doh_exchange (ev : Event) : bool :=
  match ev with
  | EvHTTPPost _ | EvReadBody => true
  | _ => false
  end.

(** The upstream answers with a 1312-byte packet and [TruncatedResponse]
    fails on it. *)
Definition envTruncationFails : Env :=
  {| Msg := bytes;
     MinDNSPacketSize := 17;
     MaxDNSPacketSize := 4096;
     MaxDNSUDPPacketSize := 1252;
     ResponseOverhead := 48;
     ApplyQueryPlugins := fun _ query => (query, PluginsActionForward, None);
     ApplyResponsePlugins := fun response => response;
     PackBuffer := fun m => Some m;
     Encrypt := fun _ query _ => Some (query, []);
     Decrypt := fun _ response _ => Some response;
     PrefixWithSize := specPrefixWithSize;
     TruncatedResponse := fun _ => None;
     HasTCFlag := specHasTCFlag;
     DialUDP := fun _ => true;
     UDPRead := fun _ _ => Some (examplePacket x81 1300);
     DialTCP := fun _ => true;
     ReadPrefixed := fun _ _ => Some (examplePacket x81 1300);
     HTTPDo := fun _ _ =>
       mkHTTPResult false
         (Some (mkHTTPResponse 200 (Some (examplePacket x81 1300)))) |}.

End Pipeline.

(** ** Key generation at startup ([main], [Start], [AppMain], [StartProxy]) *)

Module Startup.
Import Pipeline.

(** The [math/rand] package: the state of a generator, [NewSource], and
    reading [n] bytes from a generator, which advances it. *)
Record MathRand : Type := mkMathRand {
  Source : Type;
  NewSource : Z -> Source;
  Read : Source -> nat -> bytes * Source
}.

(** The package-level generator of [math/rand] when the program starts:
    until [rand.Seed] is called it behaves as if seeded with 1. *)
Definition globalRand (R : MathRand) : Source R := NewSource R 1.

(** The fields of [Proxy] that come from the configuration, and the keys. *)
Record Proxy : Type := mkProxy {
  proxyPublicKey : bytes;
  proxySecretKey : bytes;
  timeout : Z;
  mainProto : string;
  listenAddresses : list string;
  registeredServers : list (string * string);
  daemonize : bool;
  maxClients : Z
}.

(** The functions that run before [rand.Read] and are defined outside
    [main.go].  [World] is everything a run can observe (command line,
    configuration file, clock, environment); each function also gets the
    package-level generator and returns it as it leaves it, since nothing in
    [main.go] tells whether it seeds or reads it.  [ConfigLoad] gives the
    service flag and the configured [Proxy], or [None] for an error;
    [InitPluginsGlobals] gives [false] for an error. *)
Record Absent (R : MathRand) (World : Type) : Type := mkAbsent {
  ConfigLoad : World -> Source R -> option (string * Proxy) * Source R;
  InitPluginsGlobals : World -> Proxy -> Source R -> bool * Source R;
  Daemonize : World -> Source R -> Source R;
  NewQuestionSizeEstimator : World -> Source R -> Source R
}.

Arguments ConfigLoad {R World}.
Arguments InitPluginsGlobals {R World}.
Arguments Daemonize {R World}.
Arguments NewQuestionSizeEstimator {R World}.


(** The first statements of [StartProxy] (lines 184-188): the estimator
    is created, [rand.Read] fills the 32 bytes of the secret key from the
    package-level generator, and [curve25519.ScalarBaseMult] derives the
    public key. *)
Definition StartProxy {R : MathRand} {World : Type} (A : Absent R World)
    (ScalarBaseMult : bytes -> bytes) (w : World) (rng : Source R)
    (proxy : Proxy) : Proxy * Source R :=
  let rng := NewQuestionSizeEstimator A w rng in
  let '(secret, rng) := Read R rng 32 in
  (mkProxy (ScalarBaseMult secret) secret (timeout proxy) (mainProto proxy)
           (listenAddresses proxy) (registeredServers proxy) (daemonize proxy)
           (maxClients proxy),
   rng).

(** [App.Start] (lines 76-95) up to the keys: [InitPluginsGlobals],
    [Daemonize] when configured, then [AppMain], which calls
    [StartProxy]; [None] after [dlog.Fatal]. *)
Definition Start {R : MathRand} {World : Type} (A : Absent R World)
    (ScalarBaseMult : bytes -> bytes) (w : World) (rng : Source R)
    (proxy : Proxy) : option Proxy :=
  match InitPluginsGlobals A w proxy rng with
  | (false, _) => None
  | (true, rng) =>
      let rng := if daemonize proxy then Daemonize A w rng else rng in
      Some (fst (StartProxy A ScalarBaseMult w rng proxy))
  end.

(** One run of the program, [main] (lines 25-74): the [Proxy] with its
    keys once [StartProxy] has run, or [None] when the run ends before that
    ([ConfigLoad] fails, or a service action was asked for).  The
    package-level generator is [globalRand] when [main] begins, and
    [main.go] itself touches it only through [rand.Read] in
    [StartProxy]. *)
Definition main {R : MathRand} {World : Type} (A : Absent R World)
    (ScalarBaseMult : bytes -> bytes) (w : World) : option Proxy :=
  match ConfigLoad A w (globalRand R) with
  | (None, _) => None
  | (Some (svcFlag, proxy), rng) =>
      if negb (Nat.eqb (String.length svcFlag) 0) then None
      else Start A ScalarBaseMult w rng proxy
  end.

(** *** A concrete instance for examples

    A toy generator whose state is a counter, and two sets of absent
    functions over a world that is the time of day: one that leaves the
    generator alone, and one whose [ConfigLoad] seeds it with the time. *)
Definition toyByte (n : Z) : byte :=
  match Byte.of_N (Z.to_N (n mod 256)) with
  | Some b => b
  | None => x00
  end.

Definition toyRand : MathRand :=
  mkMathRand Z (fun seed => seed)
             (fun g n => (repeat (toyByte g) n, g + 1)).

Definition exampleProxy : Proxy :=
  mkProxy [] [] 2500 "udp" ["127.0.0.1:53"%string] [] false 250.


Definition seedingAbsent : Absent toyRand Z :=
  mkAbsent toyRand Z
    (fun now _ => (Some (EmptyString, exampleProxy), NewSource toyRand now))
    (fun _ _ g => (true, g))
    (fun _ g => g)
    (fun _ g => g).

End Startup.

(** ** The dial hook of the HTTP transport ([StartProxy], lines 205-218) *)

Module Dialer.

(** [s[:n]] and [s[n:]] for [0 <= n <= len(s)]. *)
Fixpoint str_take (n : nat) (s : string) : string :=
  match n, s with
  | O, _ => EmptyString
  | S n', EmptyString => EmptyString
  | S n', String a s' => String a (str_take n' s')
  end.

Fixpoint str_drop (n : nat) (s : string) : string :=
  match n, s with
  | O, _ => s
  | S n', EmptyString => EmptyString
  | S n', String a s' => str_drop n' s'
  end.

Definition str_len (s : string) : Z := Z.of_nat (String.length s).

Fixpoint str_contains (c : Ascii.ascii) (s : string) : bool :=
  match s with
  | EmptyString => false
  | String a s' => Ascii.eqb a c || str_contains c s'
  end.

(** Scanning [s], whose first byte has index [i]; [found] is the index of
    the last [c] seen so far. *)
Fixpoint LastIndexFrom (c : Ascii.ascii) (s : string) (i found : Z) : Z :=
  match s with
  | EmptyString => found
  | String a s' => LastIndexFrom c s' (i + 1) (if Ascii.eqb a c then i else found)
  end.

(** [strings.LastIndex(s, sep)] for a one-byte separator: the index of the
    last occurrence, or -1. *)
Definition LastIndex (s : string) (sep : Ascii.ascii) : Z :=
  LastIndexFrom sep s 0 (-1).

(** A slice expression; [None] is the run-time panic for bounds out of
    range. *)
Definition slice_to (s : string) (n : Z) : option string :=
  if (n <? 0) || (str_len s <? n) then None else Some (str_take (Z.to_nat n) s).

Definition slice_from (s : string) (n : Z) : option string :=
  if (n <? 0) || (str_len s <? n) then None else Some (str_drop (Z.to_nat n) s).

(** The address the hook passes to [dialer.DialContext] for [addrStr],
    given the content of [proxy.cachedIPs.cache]; a missing key reads as
    the empty string. *)
Definition dialAddress (cache : gmap string string) (addrStr : string)
  : option string :=
  match slice_to addrStr (LastIndex addrStr ":"%char) with
  | None => None
  | Some host =>
      let ipOnly := host in
      let cachedIP := default EmptyString (cache !! host) in
      let ipOnly := if 0 <? str_len cachedIP then cachedIP else ipOnly in
      match slice_from addrStr (LastIndex addrStr ":"%char) with
      | None => None
      | Some rest => Some (String.append ipOnly rest)
      end
  end.

End Dialer.

(** * Properties *)

(** ** Admission counter *)

Section AdmissionFacts.
Import Admission.

Lemma wrap32_small z : 0 <= z <= uint32_max -> wrap32 z = z.
Proof. unfold wrap32, uint32_max. intros H. apply Z.mod_small. lia. Qed.

Lemma weight_range pc : 0 <= weight pc <= 1.
Proof. unfold weight. destruct (holds_reservation pc); lia. Qed.

Lemma in_flight_cons k pc ts : in_flight ((k, pc) :: ts) = weight pc + in_flight ts.
Proof. reflexivity. Qed.

Lemma in_flight_nonneg ts : 0 <= in_flight ts.
Proof.
  induction ts as [|[k pc] ts IH]; [simpl; lia|].
  rewrite in_flight_cons. pose proof (weight_range pc). lia.
Qed.

Lemma in_flight_app ts us : in_flight (ts ++ us) = in_flight ts + in_flight us.
Proof.
  induction ts as [|[k pc] ts IH]; [reflexivity|].
  change (((k, pc) :: ts) ++ us) with ((k, pc) :: (ts ++ us)).
  rewrite !in_flight_cons, IH. lia.
Qed.

Lemma in_flight_insert (ts : list Task) i k pc k' pc' :
  ts !! i = Some (k, pc) ->
  in_flight (<[i := (k', pc')]> ts) = in_flight ts - weight pc + weight pc'.
Proof.
  revert i. induction ts as [|[k0 pc0] ts IH]; intros i Hi.
  - discriminate.
  - destruct i as [|i].
    + simpl in Hi. injection Hi as -> ->.
      change (<[0%nat := (k', pc')]> ((k, pc) :: ts)) with ((k', pc') :: ts).
      rewrite !in_flight_cons. lia.
    + change (<[S i := (k', pc')]> ((k0, pc0) :: ts))
        with ((k0, pc0) :: <[i := (k', pc')]> ts).
      rewrite !in_flight_cons, (IH i Hi). lia.
Qed.

Lemma in_flight_holder (ts : list Task) i k pc :
  ts !! i = Some (k, pc) -> weight pc <= in_flight ts.
Proof.
  revert i. induction ts as [|[k0 pc0] ts IH]; intros i Hi.
  - discriminate.
  - rewrite in_flight_cons. destruct i as [|i]; simpl in Hi.
    + injection Hi as -> ->. pose proof (in_flight_nonneg ts). lia.
    + specialize (IH i Hi). pose proof (weight_range pc0). lia.
Qed.

(** The effect of one task step on the counter, given what the invariant
    says about the task and the counter. *)
Lemma task_step_effect maxClients c io k pc c' k' pc' :
  maxClients <= uint32_max ->
  0 <= c <= maxClients ->
  task_ok maxClients (k, pc) ->
  weight pc <= c ->
  task_step maxClients c io (k, pc) = (c', (k', pc')) ->
  k' = k /\ c' = c - weight pc + weight pc' /\ c' <= maxClients /\
  task_ok maxClients (k', pc').
Proof.
  intros Hmax Hc Hok Hw Hstep. unfold task_step in Hstep.
  destruct pc as [[|count]| | | |[|count]|]; simpl in *.
  - destruct (Z.leb_spec maxClients c); injection Hstep as <- <- <-;
      unfold weight, task_ok; simpl; repeat split; lia.
  - unfold CompareAndSwapUint32 in Hstep. unfold task_ok in Hok; simpl in Hok.
    destruct (Z.eqb_spec c count) as [->|Hne].
    + rewrite wrap32_small in Hstep by lia.
      injection Hstep as <- <- <-. unfold weight, task_ok.
      destruct k; simpl; repeat split; lia.
    + injection Hstep as <- <- <-. unfold weight, task_ok; simpl.
      repeat split; lia.
  - injection Hstep as <- <- <-. unfold weight, task_ok; simpl. repeat split; lia.
  - injection Hstep as <- <- <-. unfold weight, task_ok.
    destruct io; simpl; repeat split; lia.
  - injection Hstep as <- <- <-. unfold weight, task_ok; simpl. repeat split; lia.
  - unfold weight in Hw; simpl in Hw.
    destruct (Z.eqb_spec c 0) as [->|Hne]; [lia|].
    injection Hstep as <- <- <-. unfold weight, task_ok; simpl. repeat split; lia.
  - unfold CompareAndSwapUint32 in Hstep. unfold task_ok in Hok; simpl in Hok.
    destruct (Z.eqb_spec c count) as [->|Hne].
    + rewrite wrap32_small in Hstep by lia.
      injection Hstep as <- <- <-. unfold weight, task_ok; simpl.
      repeat split; lia.
    + injection Hstep as <- <- <-. unfold weight, task_ok; simpl.
      repeat split; lia.
  - injection Hstep as <- <- <-. unfold weight, task_ok; simpl. repeat split; lia.
Qed.

Lemma init_inv maxClients : 0 <= maxClients -> Inv maxClients init.
Proof. intros H. split; simpl; [reflexivity | lia | constructor]. Qed.

Lemma exec_inv maxClients s a :
  maxClients <= uint32_max ->
  Inv maxClients s -> Inv maxClients (exec maxClients s a).
Proof.
  intros Hmax [Hcount Hbound Hts]. destruct a as [kind | i io]; simpl.
  - split; simpl.
    + rewrite in_flight_app, in_flight_cons. unfold weight. simpl. lia.
    + exact Hbound.
    + apply Forall_app. split; [exact Hts|]. repeat constructor.
  - destruct (tasks s !! i) as [[k pc]|] eqn:Hi; [|split; assumption].
    destruct (task_step maxClients (clientsCount s) io (k, pc)) as [c' [k' pc']] eqn:Hstep.
    pose proof (in_flight_nonneg (tasks s)) as Hnn.
    pose proof (in_flight_holder _ _ _ _ Hi) as Hhold.
    assert (Hok : task_ok maxClients (k, pc)).
    { rewrite Forall_lookup in Hts. exact (Hts _ _ Hi). }
    assert (Hc : 0 <= clientsCount s <= maxClients) by lia.
    assert (Hw : weight pc <= clientsCount s) by lia.
    destruct (task_step_effect _ _ _ _ _ _ _ _ Hmax Hc Hok Hw Hstep)
      as (-> & Hc' & Hb' & Hok').
    split; simpl.
    + rewrite (in_flight_insert _ _ _ _ _ _ Hi). lia.
    + exact Hb'.
    + apply Forall_insert; assumption.
Qed.

Lemma run_from_inv maxClients sched s :
  maxClients <= uint32_max ->
  Inv maxClients s -> Inv maxClients (run_from maxClients s sched).
Proof.
  intros Hmax. revert s. induction sched as [|a sched IH]; intros s Hs; simpl.
  - exact Hs.
  - apply IH. apply exec_inv; assumption.
Qed.

Lemma run_inv maxClients sched :
  0 <= maxClients <= uint32_max -> Inv maxClients (run maxClients sched).
Proof.
  intros [H0 Hmax]. apply run_from_inv; [exact Hmax|]. apply init_inv, H0.
Qed.

Lemma exec_Step_lookup maxClients s i io k pc :
  tasks s !! i = Some (k, pc) ->
  exec maxClients s (Step i io) =
    mkState (fst (task_step maxClients (clientsCount s) io (k, pc)))
            (<[i := snd (task_step maxClients (clientsCount s) io (k, pc))]> (tasks s)).
Proof.
  intros Hi. unfold exec. rewrite Hi.
  destruct (task_step maxClients (clientsCount s) io (k, pc)) as [c t]. reflexivity.
Qed.

Lemma run_from_cons maxClients s a sched :
  run_from maxClients s (a :: sched) = run_from maxClients (exec maxClients s a) sched.
Proof. reflexivity. Qed.

Lemma done_stays maxClients ios s i k :
  tasks s !! i = Some (k, Done) ->
  run_from maxClients s (map (Step i) ios) = s.
Proof.
  intros Hi. induction ios as [|io ios IH]; [reflexivity|].
  cbn [map]. rewrite run_from_cons, (exec_Step_lookup _ _ _ _ _ _ Hi). cbn [task_step fst snd].
  rewrite list_insert_id by exact Hi. destruct s. exact IH.
Qed.

(** A task that holds a reservation and is scheduled often enough returns,
    and the counter has gone down by one when it does. *)
Lemma holder_exits maxClients ios : forall s i k pc,
  maxClients <= uint32_max ->
  Inv maxClients s ->
  tasks s !! i = Some (k, pc) ->
  holds_reservation pc = true ->
  (steps_to_exit (clientsCount s) pc <= length ios)%nat ->
  let s' := run_from maxClients s (map (Step i) ios) in
  tasks s' !! i = Some (k, Done) /\ clientsCount s' = clientsCount s - 1.
Proof.
  induction ios as [|io ios IH]; intros s i k pc Hmax HI Hi Hh Hn.
  - destruct pc as [l| | | |[|count]|]; try discriminate; simpl in Hn; try lia.
    destruct (count =? clientsCount s); lia.
  - cbn [map]. rewrite run_from_cons.
    pose proof (exec_inv _ _ (Step i io) Hmax HI) as HI'.
    rewrite (exec_Step_lookup _ _ _ _ _ _ Hi) in HI' |- *.
    pose proof (in_flight_holder _ _ _ _ Hi) as Hw.
    destruct HI as [Hcount Hbound Hts].
    assert (Hlt : (i < length (tasks s))%nat) by (eapply lookup_lt_Some; eassumption).
    assert (H1 : 1 <= clientsCount s).
    { unfold weight in Hw. rewrite Hh in Hw. lia. }
    set (st := task_step maxClients (clientsCount s) io (k, pc)) in *.
    assert (Hcases :
      st = (clientsCount s - 1, (k, Done)) \/
      exists pc', st = (clientsCount s, (k, pc')) /\ holds_reservation pc' = true /\
                  (steps_to_exit (clientsCount s) pc' < steps_to_exit (clientsCount s) pc)%nat).
    { subst st. unfold task_step.
      destruct pc as [l| | | |[|count]|]; try discriminate; simpl.
      - right. destruct io; eexists; repeat split; simpl; lia.
      - right. eexists; repeat split; simpl; lia.
      - destruct (Z.eqb_spec (clientsCount s) 0); [lia|].
        right. eexists; repeat split; simpl. rewrite Z.eqb_refl. lia.
      - unfold CompareAndSwapUint32.
        destruct (Z.eqb_spec (clientsCount s) count) as [<-|Hne].
        + left. rewrite wrap32_small; [reflexivity|]. lia.
        + right. eexists; repeat split; simpl.
          destruct (Z.eqb_spec count (clientsCount s)); [congruence|lia]. }
    destruct Hcases as [Hst | (pc' & Hst & Hh' & Hrank)];
      rewrite Hst in HI' |- *; cbn [fst snd] in HI' |- *.
    + rewrite (done_stays _ _ _ i k); cbn [tasks clientsCount].
      * split; [|reflexivity]. apply list_lookup_insert_eq. exact Hlt.
      * apply list_lookup_insert_eq. exact Hlt.
    + match goal with |- context [run_from _ ?s1 _] =>
        specialize (IH s1 i k pc' Hmax HI') end.
      cbn [tasks clientsCount] in IH. rewrite list_lookup_insert_eq in IH by exact Hlt.
      apply IH; [reflexivity | exact Hh' | simpl in Hn; lia].
Qed.

Lemma steps_to_exit_le_4 c pc : (steps_to_exit c pc <= 4)%nat.
Proof.
  destruct pc as [l| | | |[|count]|]; simpl; try lia.
  destruct (count =? c); lia.
Qed.

(** C1: in every execution (any interleaving of task spawns and atomic
    task steps) the counter [clientsCount] stays within [0, maxClients] and
    equals the number of tasks in flight.  A step in which
    [clientsCountInc] returns true happens only at a counter strictly below
    [maxClients] and raises it by exactly one; [clientsCountInc] returns
    false exactly when it reads a counter at the cap, and leaves it
    unchanged; a task that got a reservation lowers the counter by one when
    it returns, and it does return once it is scheduled four times. *)
Theorem clientsCount_never_exceeds_maxClients (maxClients : Z) (sched : list Action) :
  0 <= maxClients <= uint32_max ->
  let s := run maxClients sched in
  (0 <= clientsCount s <= maxClients /\ clientsCount s = in_flight (tasks s)) /\
  (forall i io k pc, tasks s !! i = Some (k, pc) ->
     let s' := exec maxClients s (Step i io) in
     exists pc', tasks s' !! i = Some (k, pc') /\
       (holds_reservation pc = false -> holds_reservation pc' = true ->
          (exists count, pc = InInc (AtCas count)) /\
          clientsCount s < maxClients /\ clientsCount s' = clientsCount s + 1) /\
       (pc = InInc AtLoad -> (pc' = Rejected <-> maxClients <= clientsCount s)) /\
       (pc' = Rejected ->
          clientsCount s' = clientsCount s /\
          (pc <> Rejected -> clientsCount s = maxClients)) /\
       (holds_reservation pc = true -> pc' = Done ->
          clientsCount s' = clientsCount s - 1) /\
       (holds_reservation pc = holds_reservation pc' ->
          clientsCount s' = clientsCount s)) /\
  (forall i k pc ios, tasks s !! i = Some (k, pc) ->
     holds_reservation pc = true -> length ios = 4%nat ->
     let s' := run_from maxClients s (map (Step i) ios) in
     tasks s' !! i = Some (k, Done) /\ clientsCount s' = clientsCount s - 1).
Proof.
  intros Hmax s. pose proof (run_inv maxClients sched Hmax) as HI. fold s in HI.
  clearbody s. pose proof HI as [Hcount Hbound Hts].
  pose proof (in_flight_nonneg (tasks s)) as Hnn.
  split; [split; [lia | exact Hcount] | split].
  - intros i io k pc Hi s'. subst s'.
    rewrite (exec_Step_lookup _ _ _ _ _ _ Hi).
    destruct (task_step maxClients (clientsCount s) io (k, pc)) as [c' [k' pc']] eqn:Hstep.
    cbn [fst snd tasks Admission.clientsCount].
    assert (Hlt : (i < length (tasks s))%nat) by (eapply lookup_lt_Some; eassumption).
    pose proof (in_flight_holder _ _ _ _ Hi) as Hw.
    assert (Hok : task_ok maxClients (k, pc)).
    { rewrite Forall_lookup in Hts. exact (Hts _ _ Hi). }
    unfold task_ok, weight in *. unfold uint32_max in Hmax.
    destruct pc as [[|count]| | | |[|count]|]; simpl in Hstep, Hok, Hw;
      unfold CompareAndSwapUint32 in Hstep;
      repeat match type of Hstep with
        | context [?a <=? ?b] => destruct (Z.leb_spec a b)
        | context [?a =? ?b] => destruct (Z.eqb_spec a b)
        | context [match ?x with UDPTask => _ | TCPTask => _ end] => destruct x
        | context [if ?x then _ else _] => destruct x
        end;
      rewrite ?wrap32_small in Hstep by (unfold uint32_max; lia);
      injection Hstep; intros; subst;
      (eexists; split; [apply list_lookup_insert_eq; exact Hlt|]);
      simpl; repeat split; intros; try discriminate; try congruence; try lia; eauto.
  - intros i k pc ios Hi Hh Hlen s'. subst s'.
    apply (holder_exits maxClients ios s i k pc (proj2 Hmax) HI Hi Hh).
    rewrite Hlen. apply steps_to_exit_le_4.
Qed.

Lemma clientsCount_never_exceeds_maxClients_witness :
  0 <= 2 <= uint32_max /\
  clientsCount (run 2 [Spawn UDPTask; Spawn TCPTask; Spawn UDPTask;
                       Step 0 false; Step 1 false; Step 2 false;
                       Step 0 false; Step 1 false; Step 2 false]) <= 2.
Proof.
  assert (H : 0 <= 2 <= uint32_max) by (unfold uint32_max; lia).
  split; [exact H|].
  exact (proj2 (proj1 (proj1
    (clientsCount_never_exceeds_maxClients 2
       [Spawn UDPTask; Spawn TCPTask; Spawn UDPTask;
        Step 0 false; Step 1 false; Step 2 false;
        Step 0 false; Step 1 false; Step 2 false] H)))).
Defined.

(** C5: [clientsCountDec] at a zero counter leaves the loop at once with
    the counter unchanged; at a positive counter it lowers the counter by
    exactly one; run on its own it has returned after two steps; and under
    any interference each of its steps either leaves the counter as it is
    or takes a positive counter down by one, so the unsigned counter never
    wraps below zero. *)
Theorem clientsCountDec_decrement_or_noop (count0 : Z) :
  is_uint32 count0 ->
  (count0 = 0 -> clientsCountDec count0 AtLoad = (0, None)) /\
  (0 < count0 -> clientsCountDec_alone 2 count0 AtLoad = Some (count0 - 1)) /\
  clientsCountDec_alone 2 count0 AtLoad
    = Some (if count0 =? 0 then 0 else count0 - 1) /\
  (forall pc c' pc',
     (forall count, pc = AtCas count -> 0 < count) ->
     clientsCountDec count0 pc = (c', pc') ->
     is_uint32 c' /\
     (c' = count0 \/ (0 < count0 /\ c' = count0 - 1 /\ pc' = None))).
Proof.
  unfold is_uint32. intros Hr.
  assert (Halone : clientsCountDec_alone 2 count0 AtLoad
                   = Some (if count0 =? 0 then 0 else count0 - 1)).
  { simpl. destruct (Z.eqb_spec count0 0) as [->|Hne]; [reflexivity|].
    simpl. unfold CompareAndSwapUint32. rewrite Z.eqb_refl.
    rewrite wrap32_small by lia. reflexivity. }
  repeat split.
  - intros ->. reflexivity.
  - intros Hpos. rewrite Halone. destruct (Z.eqb_spec count0 0); [lia|reflexivity].
  - exact Halone.
  - destruct pc as [|count]; simpl in H0.
    + destruct (count0 =? 0); injection H0 as <- <-; lia.
    + unfold CompareAndSwapUint32 in H0. specialize (H count eq_refl).
      destruct (Z.eqb_spec count0 count) as [->|Hne].
      * rewrite wrap32_small in H0 by lia. injection H0 as <- <-. lia.
      * injection H0 as <- <-. lia.
  - destruct pc as [|count]; simpl in H0.
    + destruct (count0 =? 0); injection H0 as <- <-; lia.
    + unfold CompareAndSwapUint32 in H0. specialize (H count eq_refl).
      destruct (Z.eqb_spec count0 count) as [->|Hne].
      * rewrite wrap32_small in H0 by lia. injection H0 as <- <-. lia.
      * injection H0 as <- <-. lia.
  - destruct pc as [|count]; simpl in H0.
    + destruct (count0 =? 0); injection H0 as <- <-; left; reflexivity.
    + unfold CompareAndSwapUint32 in H0. specialize (H count eq_refl).
      destruct (Z.eqb_spec count0 count) as [->|Hne].
      * rewrite wrap32_small in H0 by lia. injection H0 as <- <-.
        right. repeat split; lia.
      * injection H0 as <- <-. left; reflexivity.
Qed.

Lemma clientsCountDec_decrement_or_noop_witness :
  is_uint32 3 /\ clientsCountDec_alone 2 3 AtLoad = Some 2.
Proof.
  assert (H : is_uint32 3) by (unfold is_uint32, uint32_max; lia).
  split; [exact H|].
  exact (proj1 (proj2 (proj2 (clientsCountDec_decrement_or_noop 3 H)))).
Defined.

End AdmissionFacts.

(** ** The per-query pipeline *)

Section PipelineFacts.
Import Pipeline.

(** Split on the innermost scrutinee first, so that every branch of a
    pipeline stage ends in a literal trace. *)
Ltac case_split :=
  match goal with
  | |- context [match ?x with _ => _ end] =>
      lazymatch x with
      | context [match _ with _ => _ end] => fail
      | _ => destruct x eqn:?
      end
  end.

Ltac unfold_proc :=
  unfold queryStage, synthStage, upstreamStage, replyStage,
    exchangeWithUDPServer, exchangeWithTCPServer, call, emit, stop,
    mbind, mret, Proc_bind, Proc_ret, bind, ret in *.

Ltac run_proc := unfold_proc; repeat (cbn [fst snd app] in *; try case_split).

Lemma ltb_false_of_le a b : a <= b -> (b <? a) = false.
Proof. intros H. apply Z.ltb_ge. exact H. Qed.

Lemma processIncomingQuery_split e serverInfo clientProto serverProto query :
  MinDNSPacketSize e <= len query ->
  processIncomingQuery e (Some serverInfo) clientProto serverProto query =
    fst (queryStage e serverInfo clientProto serverProto query) ++
    match snd (queryStage e serverInfo clientProto serverProto query) with
    | Some response => fst (replyStage e clientProto response)
    | None => []
    end.
Proof.
  intros Hlen. unfold processIncomingQuery. rewrite (ltb_false_of_le _ _ Hlen).
  unfold mbind, Proc_bind, bind.
  destruct (queryStage e serverInfo clientProto serverProto query) as [t [response|]];
    cbn [fst snd].
  - destruct (replyStage e clientProto response) as [t' r]. reflexivity.
  - symmetry. apply app_nil_r.
Qed.

Lemma queryStage_quiet e serverInfo clientProto serverProto query :
  Forall quiet (fst (queryStage e serverInfo clientProto serverProto query)).
Proof.
  unfold quiet. run_proc. all: repeat constructor. all: discriminate.
Qed.

Lemma quiet_none_of t :
  Forall quiet t ->
  none_of is_client_write t /\ none_of is_estimator_update t /\ ~ In EvNoticeSuccess t.
Proof.
  intros H. unfold none_of. repeat split.
  - eapply Forall_impl; [exact H|]. intros ev Hq. apply Hq.
  - eapply Forall_impl; [exact H|]. intros ev Hq. apply Hq.
  - intros Hin. rewrite Forall_forall in H. apply list_elem_of_In in Hin.
    destruct (H _ Hin) as (_ & _ & Hne). congruence.
Qed.

Lemma replyStage_out_of_range e clientProto response :
  len response < MinDNSPacketSize e \/ MaxDNSPacketSize e < len response ->
  replyStage e clientProto response = ([EvNoticeFailure], None).
Proof.
  intros Hr. unfold replyStage.
  assert (Hb : (len response <? MinDNSPacketSize e)
               || (MaxDNSPacketSize e <? len response) = true).
  { apply orb_true_iff. rewrite !Z.ltb_lt. exact Hr. }
  rewrite Hb. reflexivity.
Qed.

Lemma replyStage_in_range_udp e response :
  MinDNSPacketSize e <= len response <= MaxDNSPacketSize e ->
  replyStage e "udp" response =
    match udpPacket e response with
    | None => ([], None)
    | Some packet =>
        ([EvWriteTo packet;
          if HasTCFlag e packet then EvBlindAdjust
          else EvAdjust (ResponseOverhead e + len packet);
          EvNoticeSuccess], Some tt)
    end.
Proof.
  intros [Hlo Hhi]. unfold replyStage, udpPacket.
  replace (len response <? MinDNSPacketSize e) with false
    by (symmetry; apply Z.ltb_ge; exact Hlo).
  rewrite (ltb_false_of_le _ _ Hhi). cbn [orb String.eqb Ascii.eqb Bool.eqb].
  unfold_proc.
  destruct (MaxDNSUDPPacketSize e <? len response);
    [destruct (TruncatedResponse e response) as [shell|]|];
    cbn [fst snd app]; try reflexivity.
  - destruct (HasTCFlag e shell); reflexivity.
  - destruct (HasTCFlag e response); reflexivity.
Qed.

Lemma replyStage_in_range_other e clientProto response :
  String.eqb clientProto "udp" = false ->
  MinDNSPacketSize e <= len response <= MaxDNSPacketSize e ->
  replyStage e clientProto response =
    match PrefixWithSize e response with
    | None => ([EvNoticeFailure], None)
    | Some prefixed => ([EvWrite prefixed; EvNoticeSuccess], Some tt)
    end.
Proof.
  intros Hproto [Hlo Hhi]. unfold replyStage.
  replace (len response <? MinDNSPacketSize e) with false
    by (symmetry; apply Z.ltb_ge; exact Hlo).
  rewrite (ltb_false_of_le _ _ Hhi), Hproto. cbn [orb]. unfold_proc.
  destruct (PrefixWithSize e response); reflexivity.
Qed.

(** C8: a query shorter than [MinDNSPacketSize], or one for which no
    server is available ([serverInfo] is nil), makes [processIncomingQuery]
    return at once: the trace is empty, so there is no reply, no plugin call
    and no health update.  The TCP task drops a length-prefixed packet
    shorter than [MinDNSPacketSize] without calling [getOne] or entering
    [processIncomingQuery]: it only releases its reservation and closes the
    connection. *)
Theorem short_query_or_no_server_is_dropped :
  (forall e serverInfo clientProto serverProto query,
     len query < MinDNSPacketSize e \/ serverInfo = None ->
     processIncomingQuery e serverInfo clientProto serverProto query = []) /\
  (forall e packet getOne,
     len packet < MinDNSPacketSize e ->
     tcpTask e true (Some packet) getOne
       = [EvSetDeadline; EvClientsCountDec; EvClientClose]).
Proof.
  split.
  - intros e serverInfo clientProto serverProto query [Hshort | ->].
    + unfold processIncomingQuery. destruct serverInfo as [si|]; [|reflexivity].
      apply Z.ltb_lt in Hshort. rewrite Hshort. reflexivity.
    + reflexivity.
  - intros e packet getOne Hshort. unfold tcpTask. apply Z.ltb_lt in Hshort.
    rewrite Hshort. reflexivity.
Qed.

Lemma short_query_or_no_server_is_dropped_witness :
  processIncomingQuery (exampleEnv PluginsActionForward None true None)
    (Some (exampleServer StampProtoTypeDNSCrypt)) "udp" "udp" [x12; x34] = [] /\
  tcpTask (exampleEnv PluginsActionForward None true None) true
    (Some [x12; x34]) (Some (exampleServer StampProtoTypeDNSCrypt))
    = [EvSetDeadline; EvClientsCountDec; EvClientClose].
Proof.
  split.
  - apply (proj1 short_query_or_no_server_is_dropped).
    left. vm_compute. reflexivity.
  - apply (proj2 short_query_or_no_server_is_dropped).
    vm_compute. reflexivity.
Defined.

(** C7: when the response that comes out of the query stage (the upstream
    exchange followed by the response plugins) is shorter than
    [MinDNSPacketSize] or longer than [MaxDNSPacketSize],
    [processIncomingQuery] calls [noticeFailure] and returns: nothing is
    written to the client, the estimator is not updated and
    [noticeSuccess] is not called. *)
Theorem out_of_range_response_is_dropped e serverInfo clientProto serverProto
    query t response :
  MinDNSPacketSize e <= len query ->
  queryStage e serverInfo clientProto serverProto query = (t, Some response) ->
  len response < MinDNSPacketSize e \/ MaxDNSPacketSize e < len response ->
  let tr := processIncomingQuery e (Some serverInfo) clientProto serverProto query in
  tr = t ++ [EvNoticeFailure] /\
  none_of is_client_write tr /\
  none_of is_estimator_update tr /\
  ~ In EvNoticeSuccess tr.
Proof.
  intros Hlen Hq Hr tr. subst tr.
  rewrite (processIncomingQuery_split _ _ _ _ _ Hlen).
  pose proof (queryStage_quiet e serverInfo clientProto serverProto query) as Hquiet.
  rewrite Hq in *. cbn [fst snd] in *.
  rewrite (replyStage_out_of_range _ _ _ Hr). cbn [fst].
  split; [reflexivity|].
  apply quiet_none_of. apply Forall_app. split; [exact Hquiet|].
  repeat constructor; discriminate.
Qed.

Lemma out_of_range_response_is_dropped_witness :
  len (examplePacket x81 2) < MinDNSPacketSize envShortReply /\
  processIncomingQuery envShortReply (Some (exampleServer StampProtoTypeDoH))
      "udp" "udp" exampleQuery
  = [EvApplyQueryPlugins "udp" exampleQuery; EvHTTPPost exampleQuery; EvReadBody;
     EvApplyResponsePlugins (examplePacket x81 2)] ++ [EvNoticeFailure].
Proof.
  assert (Hshort : len (examplePacket x81 2) < MinDNSPacketSize envShortReply)
    by (vm_compute; reflexivity).
  split; [exact Hshort|].
  refine (proj1 (out_of_range_response_is_dropped envShortReply
            (exampleServer StampProtoTypeDoH) "udp" "udp" exampleQuery
            [EvApplyQueryPlugins "udp" exampleQuery; EvHTTPPost exampleQuery;
             EvReadBody; EvApplyResponsePlugins (examplePacket x81 2)]
            (examplePacket x81 2) _ _ (or_introl Hshort))).
  - vm_compute. discriminate.
  - vm_compute. reflexivity.
Defined.

Lemma quiet_In t ev : Forall quiet t -> In ev t -> quiet ev.
Proof.
  intros H Hin. rewrite Forall_forall in H. apply H, list_elem_of_In, Hin.
Qed.

(** What the reply stage does, case by case. *)
Lemma replyStage_cases e clientProto response :
  let r := fst (replyStage e clientProto response) in
  r = [EvNoticeFailure] \/ r = [] /\ clientProto = "udp"%string \/
  (clientProto = "udp"%string /\ MinDNSPacketSize e <= len response <= MaxDNSPacketSize e /\
   exists packet, udpPacket e response = Some packet /\
     r = [EvWriteTo packet;
          if HasTCFlag e packet then EvBlindAdjust
          else EvAdjust (ResponseOverhead e + len packet);
          EvNoticeSuccess]) \/
  (clientProto <> "udp"%string /\ MinDNSPacketSize e <= len response <= MaxDNSPacketSize e /\
   exists prefixed, PrefixWithSize e response = Some prefixed /\
     r = [EvWrite prefixed; EvNoticeSuccess]).
Proof.
  intros r. subst r.
  destruct (Z.ltb_spec (len response) (MinDNSPacketSize e)) as [Hlo|Hlo].
  { left. rewrite replyStage_out_of_range by (left; exact Hlo). reflexivity. }
  destruct (Z.ltb_spec (MaxDNSPacketSize e) (len response)) as [Hhi|Hhi].
  { left. rewrite replyStage_out_of_range by (right; exact Hhi). reflexivity. }
  destruct (String.eqb_spec clientProto "udp") as [->|Hne].
  - rewrite replyStage_in_range_udp by (split; assumption).
    destruct (udpPacket e response) as [packet|] eqn:Hp.
    + right. right. left. repeat split; try assumption. exists packet. split; reflexivity.
    + right. left. split; reflexivity.
  - assert (Hb : String.eqb clientProto "udp" = false).
    { apply String.eqb_neq. exact Hne. }
    rewrite (replyStage_in_range_other _ _ _ Hb) by (split; assumption).
    destruct (PrefixWithSize e response) as [prefixed|] eqn:Hp.
    + right. right. right. repeat split; try assumption. exists prefixed.
      split; reflexivity.
    + left. reflexivity.
Qed.

(** The trace of a query that entered the pipeline: the quiet query stage
    followed by what the reply stage did. *)
Lemma processIncomingQuery_cases e serverInfo clientProto serverProto query :
  let tr := processIncomingQuery e serverInfo clientProto serverProto query in
  tr = [] \/
  exists si t,
    serverInfo = Some si /\ MinDNSPacketSize e <= len query /\
    t = fst (queryStage e si clientProto serverProto query) /\ Forall quiet t /\
    (tr = t \/
     exists response,
       snd (queryStage e si clientProto serverProto query) = Some response /\
       tr = t ++ fst (replyStage e clientProto response)).
Proof.
  intros tr. subst tr. destruct serverInfo as [si|]; [|left; reflexivity].
  destruct (Z.ltb_spec (len query) (MinDNSPacketSize e)) as [Hlo|Hlo].
  { left. unfold processIncomingQuery. apply Z.ltb_lt in Hlo. rewrite Hlo. reflexivity. }
  right. exists si, (fst (queryStage e si clientProto serverProto query)).
  repeat split; try assumption; [apply queryStage_quiet|].
  rewrite (processIncomingQuery_split _ _ _ _ _ Hlo).
  destruct (snd (queryStage e si clientProto serverProto query)) as [response|].
  - right. exists response. split; reflexivity.
  - left. apply app_nil_r.
Qed.

Ltac in_inv :=
  repeat match goal with
  | H : In _ (_ ++ _) |- _ => apply in_app_or in H; destruct H as [H|H]
  | H : In _ ?l, Hq' : Forall quiet ?l |- _ =>
      let Hw := fresh in
      destruct (quiet_In _ _ Hq' H) as (Hw & ? & ?); simpl in *; congruence
  | H : In _ (_ :: _) |- _ => destruct H as [H|H]
  | H : In _ [] |- _ => destruct H
  end.

Ltac eq_inv :=
  repeat match goal with
  | H : ?a = ?b |- _ =>
      first [ is_var b; subst b | is_var a; subst a
            | discriminate H | injection H as H ]
  end.

(** C9: every UDP response written to the client is followed by exactly
    one estimator update: [blindAdjust] when the written packet carries the
    TC flag, and otherwise [adjust] with [ResponseOverhead] plus the length
    of the written packet.  A response written to a client of any other
    protocol comes with no estimator update at all, so the estimator is
    updated exactly when a response goes out to a UDP client. *)
Theorem estimator_updated_exactly_for_udp e serverInfo clientProto serverProto query :
  let tr := processIncomingQuery e serverInfo clientProto serverProto query in
  (forall packet, In (EvWriteTo packet) tr ->
     clientProto = "udp"%string /\
     if HasTCFlag e packet
     then In EvBlindAdjust tr /\ forall size, ~ In (EvAdjust size) tr
     else In (EvAdjust (ResponseOverhead e + len packet)) tr /\
          ~ In EvBlindAdjust tr /\
          forall size, In (EvAdjust size) tr -> size = ResponseOverhead e + len packet) /\
  (forall packet, In (EvWrite packet) tr ->
     clientProto <> "udp"%string /\ none_of is_estimator_update tr) /\
  (forall ev, In ev tr -> is_estimator_update ev = true ->
     clientProto = "udp"%string /\ exists packet, In (EvWriteTo packet) tr).
Proof.
  intros tr.
  destruct (processIncomingQuery_cases e serverInfo clientProto serverProto query)
    as [Hnil | (si & t & _ & Hlen & _ & Hq & [Htr | (response & Hresp & Htr)])];
    fold tr in Hnil || fold tr in Htr.
  - rewrite Hnil. repeat split; intros; simpl in *; try contradiction.
  - rewrite Htr. repeat split; intros; in_inv.
  - rewrite Htr. clear Htr tr.
    destruct (replyStage_cases e clientProto response)
      as [Hr | [[Hr Hudp] | [(Hudp & Hrange & packet & Hp & Hr)
                            | (Hudp & Hrange & prefixed & Hp & Hr)]]];
      rewrite Hr; clear Hr.
    + repeat split; intros; in_inv; eq_inv; simpl in *; discriminate.
    + repeat split; intros; in_inv.
    + destruct (HasTCFlag e packet) eqn:Htc.
      * split; [|split].
        -- intros packet0 Hin. in_inv; eq_inv. split; [reflexivity|].
           rewrite Htc. split.
           ++ apply in_or_app. right. simpl. auto.
           ++ intros size Hin. in_inv; eq_inv.
        -- intros packet0 Hin. in_inv; eq_inv.
        -- intros ev Hin Hest. split; [assumption|]. exists packet.
           apply in_or_app. right. simpl. auto.
      * split; [|split].
        -- intros packet0 Hin. in_inv; eq_inv. split; [reflexivity|].
           rewrite Htc. split; [|split].
           ++ apply in_or_app. right. simpl. auto.
           ++ intros Hin. in_inv; eq_inv.
           ++ intros size Hin. in_inv; eq_inv. reflexivity.
        -- intros packet0 Hin. in_inv; eq_inv.
        -- intros ev Hin Hest. split; [assumption|]. exists packet.
           apply in_or_app. right. simpl. auto.
    + split; [|split].
      * intros packet0 Hin. in_inv; eq_inv.
      * intros packet0 Hin. split; [assumption|].
        apply Forall_app. split.
        -- eapply Forall_impl; [exact Hq|]. intros ev Hev. apply Hev.
        -- repeat constructor.
      * intros ev Hin Hest. in_inv; eq_inv; simpl in *; discriminate.
Qed.

Lemma estimator_updated_exactly_for_udp_witness :
  In (EvAdjust (ResponseOverhead envSmallReply + len (examplePacket x81 8)))
     (processIncomingQuery envSmallReply (Some (exampleServer StampProtoTypeDNSCrypt))
        "udp" "udp" exampleQuery).
Proof.
  assert (Hin : In (EvWriteTo (examplePacket x81 8))
                  (processIncomingQuery envSmallReply
                     (Some (exampleServer StampProtoTypeDNSCrypt))
                     "udp" "udp" exampleQuery)).
  { vm_compute. do 9 right. left. reflexivity. }
  pose proof (proj1 (estimator_updated_exactly_for_udp envSmallReply
                (Some (exampleServer StampProtoTypeDNSCrypt)) "udp" "udp" exampleQuery)
              (examplePacket x81 8) Hin) as [_ H].
  assert (Htc : HasTCFlag envSmallReply (examplePacket x81 8) = false) by reflexivity.
  rewrite Htc in H. exact (proj1 H).
Defined.

Lemma byte_lor_sets_TC b : N.testbit (Byte.to_N (byte_lor b 2)) 1 = true.
Proof. destruct b; reflexivity. Qed.

Lemma specTruncatedResponse_shell response shell :
  specTruncatedResponse response = Some shell ->
  len shell = 12 /\ specHasTCFlag shell = true /\ answerCount shell = Some 0%N.
Proof.
  unfold specTruncatedResponse.
  do 12 (destruct response as [|? response]; [discriminate|]).
  intros [= <-]. repeat split. simpl. apply byte_lor_sets_TC.
Qed.

(** C4: with the wire helpers as the spec describes them and a UDP limit
    that admits a DNS header, every packet written to a UDP client is at
    most [MaxDNSUDPPacketSize] bytes long; it is the response itself when
    that fits, and when the response is longer it is the truncated shell of
    the response, which carries the TC flag and has an answer count of
    zero. *)
Theorem udp_reply_fits_or_is_truncated e serverInfo serverProto query :
  12 <= MaxDNSUDPPacketSize e ->
  forall ev,
    In ev (processIncomingQuery (withSpecCodec e) serverInfo "udp" serverProto query) ->
    is_client_write ev = true ->
    exists si response packet,
      serverInfo = Some si /\
      snd (queryStage (withSpecCodec e) si "udp" serverProto query) = Some response /\
      ev = EvWriteTo packet /\
      len packet <= MaxDNSUDPPacketSize e /\
      (len response <= MaxDNSUDPPacketSize e -> packet = response) /\
      (MaxDNSUDPPacketSize e < len response ->
         specTruncatedResponse response = Some packet /\
         specHasTCFlag packet = true /\
         answerCount packet = Some 0%N).
Proof.
  intros Hmax ev Hin Hw.
  destruct (processIncomingQuery_cases (withSpecCodec e) serverInfo "udp" serverProto query)
    as [Hnil | (si & t & -> & Hlen & _ & Hq & [Htr | (response & Hresp & Htr)])].
  - rewrite Hnil in Hin. destruct Hin.
  - rewrite Htr in Hin. in_inv.
  - rewrite Htr in Hin. clear Htr.
    destruct (replyStage_cases (withSpecCodec e) "udp" response)
      as [Hr | [[Hr Hudp] | [(Hudp & Hrange & packet & Hp & Hr)
                            | (Hudp & Hrange & prefixed & Hp & Hr)]]];
      rewrite Hr in Hin; clear Hr; [| | |congruence].
    + in_inv; eq_inv; discriminate.
    + in_inv.
    + exists si, response, packet. split; [reflexivity|]. split; [exact Hresp|].
      unfold udpPacket in Hp. cbn [withSpecCodec MaxDNSUDPPacketSize TruncatedResponse] in Hp.
      destruct (Z.ltb_spec (MaxDNSUDPPacketSize e) (len response)) as [Hbig|Hsmall].
      * destruct (specTruncatedResponse_shell _ _ Hp) as (Hl & Htc & Han).
        assert (Hev : ev = EvWriteTo packet).
        { in_inv; eq_inv; try reflexivity; try discriminate.
          cbn [withSpecCodec HasTCFlag] in Hw. rewrite Htc in Hw. discriminate. }
        repeat split; try assumption; lia.
      * injection Hp as <-.
        assert (Hev : ev = EvWriteTo response).
        { in_inv; eq_inv; try reflexivity; try discriminate.
          destruct (HasTCFlag (withSpecCodec e) response); discriminate. }
        repeat split; try assumption; try reflexivity; lia.
Qed.

Lemma udp_reply_fits_or_is_truncated_witness :
  12 <= MaxDNSUDPPacketSize envLargeReply /\
  exists packet,
    len packet <= MaxDNSUDPPacketSize envLargeReply /\
    specTruncatedResponse (examplePacket x81 1300) = Some packet /\
    specHasTCFlag packet = true /\ answerCount packet = Some 0%N.
Proof.
  assert (Hmax : 12 <= MaxDNSUDPPacketSize envLargeReply) by (vm_compute; discriminate).
  split; [exact Hmax|].
  destruct (udp_reply_fits_or_is_truncated envLargeReply
              (Some (exampleServer StampProtoTypeDNSCrypt)) "udp" exampleQuery Hmax
              (EvWriteTo [x12; x34; x83; x00; x00; x00; x00; x00; x00; x00; x00; x00]))
    as (si & response & packet & Hsi & Hresp & _ & Hlen & _ & Hshell).
  - vm_compute. do 9 right. left. reflexivity.
  - reflexivity.
  - exists packet. split; [exact Hlen|].
    assert (Hr : response = examplePacket x81 1300).
    { injection Hsi as <-. vm_compute in Hresp. injection Hresp as <-. reflexivity. }
    rewrite Hr in Hshell. apply Hshell. vm_compute. reflexivity.
Defined.


Lemma replyStage_no_upstream e clientProto response :
  none_of is_upstream_contact (fst (replyStage e clientProto response)) /\
  none_of is_response_plugin_call (fst (replyStage e clientProto response)).
Proof.
  unfold none_of. run_proc. all: split; repeat constructor.
Qed.

Lemma len_nonempty {A} (l : list A) : l <> [] -> (len l =? 0) = false.
Proof.
  intros H. destruct l as [|a l]; [congruence|].
  apply Z.eqb_neq. unfold len. simpl length. lia.
Qed.

(** C6: when the query plugins end with an action other than Forward and
    a synthesized response (whose packed form, like every packed DNS
    message, is not empty), [processIncomingQuery] packs the synthesized
    response and, unless the action is Drop, hands exactly that packet to
    the reply stage.  Nothing is done towards the upstream server: no
    [Encrypt], no [noticeBegin], no UDP, TCP or DoH exchange, and the
    response plugins are not applied. *)
Theorem synthesized_response_skips_upstream e serverInfo clientProto serverProto
    query query' action m :
  MinDNSPacketSize e <= len query ->
  ApplyQueryPlugins e clientProto query = (query', action, Some m) ->
  action <> PluginsActionForward ->
  (forall packed, PackBuffer e m = Some packed -> packed <> []) ->
  let tr := processIncomingQuery e (Some serverInfo) clientProto serverProto query in
  tr = EvApplyQueryPlugins clientProto query :: EvPackBuffer ::
       match PackBuffer e m with
       | None => []
       | Some packed =>
           if PluginsAction_eqb action PluginsActionDrop then []
           else fst (replyStage e clientProto packed)
       end /\
  none_of is_upstream_contact tr /\
  ~ In EvNoticeBegin tr /\
  none_of is_response_plugin_call tr.
Proof.
  intros Hlen Hplugins Hact Hpack tr.
  assert (Htr : tr = EvApplyQueryPlugins clientProto query :: EvPackBuffer ::
       match PackBuffer e m with
       | None => []
       | Some packed =>
           if PluginsAction_eqb action PluginsActionDrop then []
           else fst (replyStage e clientProto packed)
       end).
  { subst tr. rewrite (processIncomingQuery_split _ _ _ _ _ Hlen).
    unfold queryStage. rewrite Hplugins. unfold synthStage.
    destruct action; [congruence| |]; cbn [PluginsAction_eqb negb];
      destruct (PackBuffer e m) as [packed|] eqn:Hp;
      unfold emit, stop, mbind, mret, Proc_bind, Proc_ret, bind, ret;
      cbn [fst snd app]; try reflexivity.
    rewrite (len_nonempty packed (Hpack packed eq_refl)). cbn [fst snd app].
    reflexivity. }
  split; [exact Htr|]. rewrite Htr.
  assert (Hall : none_of is_upstream_contact
                   (EvApplyQueryPlugins clientProto query :: EvPackBuffer ::
                    match PackBuffer e m with
                    | None => []
                    | Some packed =>
                        if PluginsAction_eqb action PluginsActionDrop then []
                        else fst (replyStage e clientProto packed)
                    end) /\
                 none_of is_response_plugin_call
                   (EvApplyQueryPlugins clientProto query :: EvPackBuffer ::
                    match PackBuffer e m with
                    | None => []
                    | Some packed =>
                        if PluginsAction_eqb action PluginsActionDrop then []
                        else fst (replyStage e clientProto packed)
                    end)).
  { unfold none_of.
    destruct (PackBuffer e m) as [packed|];
      [destruct (PluginsAction_eqb action PluginsActionDrop)|];
      split; repeat (constructor; [reflexivity|]); try constructor;
      apply (replyStage_no_upstream e clientProto packed). }
  destruct Hall as [Hup Hplug]. repeat split; try assumption.
  intros Hin. unfold none_of in Hup. rewrite Forall_forall in Hup.
  apply list_elem_of_In in Hin. specialize (Hup _ Hin). discriminate.
Qed.

Lemma synthesized_response_skips_upstream_witness :
  MinDNSPacketSize envSynth <= len exampleQuery /\
  none_of is_upstream_contact
    (processIncomingQuery envSynth (Some (exampleServer StampProtoTypeDNSCrypt))
       "tcp" "tcp" exampleQuery).
Proof.
  assert (Hlen : MinDNSPacketSize envSynth <= len exampleQuery)
    by (vm_compute; discriminate).
  split; [exact Hlen|].
  refine (proj1 (proj2 (synthesized_response_skips_upstream envSynth
            (exampleServer StampProtoTypeDNSCrypt) "tcp" "tcp" exampleQuery
            exampleQuery PluginsActionSynth (examplePacket x81 8) Hlen _ _ _))).
  - reflexivity.
  - discriminate.
  - intros packed Hp. vm_compute in Hp. injection Hp as <-. discriminate.
Defined.

Lemma exchange_trace e serverInfo serverProto encryptedQuery clientNonce :
  Forall quiet (fst (exchange e serverInfo serverProto encryptedQuery clientNonce)) /\
  none_of is_health_update
    (fst (exchange e serverInfo serverProto encryptedQuery clientNonce)).
Proof.
  unfold exchange, none_of, quiet. run_proc.
  all: split; repeat constructor; discriminate.
Qed.

Lemma queryStage_forward e serverInfo clientProto serverProto query query' synth :
  ApplyQueryPlugins e clientProto query = (query', PluginsActionForward, synth) ->
  queryStage e serverInfo clientProto serverProto query =
    let r := bind (upstreamStage e serverInfo serverProto query')
               (fun response =>
                  ([EvApplyResponsePlugins response],
                   Some (ApplyResponsePlugins e response))) in
    (EvApplyQueryPlugins clientProto query :: fst r, snd r).
Proof.
  intros Hplugins. unfold queryStage. rewrite Hplugins.
  unfold synthStage. cbn [PluginsAction_eqb negb].
  unfold emit, stop, mbind, mret, Proc_bind, Proc_ret, bind, ret.
  cbn [fst snd app len length Z.of_nat Z.eqb].
  destruct (upstreamStage e serverInfo serverProto query') as [t [response|]];
    reflexivity.
Qed.

Lemma synthStage_trace e action synth :
  fst (synthStage e action synth) = [] \/
  fst (synthStage e action synth) = [EvPackBuffer].
Proof.
  unfold synthStage. unfold_proc.
  destruct (negb (PluginsAction_eqb action PluginsActionForward)); [|left; reflexivity].
  destruct synth as [m|]; [destruct (PackBuffer e m)|];
    destruct (PluginsAction_eqb action PluginsActionDrop); cbn [fst snd app];
    auto.
Qed.

Lemma synthStage_forward e synth :
  synthStage e PluginsActionForward synth = ([], Some []).
Proof. reflexivity. Qed.

(** A query for which the query plugins leave nothing to answer with (the
    local [response] is empty after lines 410-420) goes to the upstream
    server: this covers the Forward action and every other action but Drop
    that comes without a synthesized response. *)
Lemma queryStage_upstream e serverInfo clientProto serverProto query query'
    action synth ts :
  ApplyQueryPlugins e clientProto query = (query', action, synth) ->
  synthStage e action synth = (ts, Some []) ->
  queryStage e serverInfo clientProto serverProto query =
    let r := bind (upstreamStage e serverInfo serverProto query')
               (fun response =>
                  ([EvApplyResponsePlugins response],
                   Some (ApplyResponsePlugins e response))) in
    (EvApplyQueryPlugins clientProto query :: ts ++ fst r, snd r).
Proof.
  intros Hplugins Hsynth. unfold queryStage. rewrite Hplugins.
  unfold emit, stop, mbind, mret, Proc_bind, Proc_ret, bind, ret.
  cbv beta iota zeta. rewrite Hsynth.
  cbn [fst snd app len length Z.of_nat Z.eqb].
  destruct (upstreamStage e serverInfo serverProto query') as [t [response|]];
    reflexivity.
Qed.

(** C2, as the code has it: for every query that goes to the upstream
    server (the query plugins left nothing to answer with), a DNSCrypt
    exchange that fails after encryption (dial, write framing, read or
    timeout, decryption) makes [processIncomingQuery] call [noticeFailure]
    once, after [noticeBegin], and return with nothing written to the
    client; a failed encryption makes it return before [noticeBegin], with
    no health update and nothing written; and after a DoH exchange without a
    usable response nothing is written to the client and [noticeSuccess] is
    not called. *)
Theorem failed_exchange_is_silent e serverInfo clientProto serverProto query
    query' action synth ts :
  MinDNSPacketSize e <= len query ->
  ApplyQueryPlugins e clientProto query = (query', action, synth) ->
  synthStage e action synth = (ts, Some []) ->
  let tr := processIncomingQuery e (Some serverInfo) clientProto serverProto query in
  (Proto serverInfo = StampProtoTypeDNSCrypt ->
   Encrypt e serverInfo query' serverProto = None ->
   tr = EvApplyQueryPlugins clientProto query :: ts ++ [EvEncrypt query' serverProto] /\
   none_of is_health_update tr /\
   none_of is_client_write tr) /\
  (Proto serverInfo = StampProtoTypeDNSCrypt ->
   forall encryptedQuery clientNonce,
     Encrypt e serverInfo query' serverProto = Some (encryptedQuery, clientNonce) ->
     snd (exchange e serverInfo serverProto encryptedQuery clientNonce) = None ->
     tr = EvApplyQueryPlugins clientProto query :: ts
          ++ [EvEncrypt query' serverProto; EvNoticeBegin]
          ++ fst (exchange e serverInfo serverProto encryptedQuery clientNonce)
          ++ [EvNoticeFailure] /\
     none_of is_health_update ts /\
     none_of is_health_update
       (fst (exchange e serverInfo serverProto encryptedQuery clientNonce)) /\
     none_of is_client_write tr) /\
  (Proto serverInfo = StampProtoTypeDoH ->
   dohFailed (HTTPDo e serverInfo query') = true ->
   none_of is_client_write tr /\ ~ In EvNoticeSuccess tr).
Proof.
  intros Hlen Hplugins Hsynth tr.
  assert (Htr : tr = fst (queryStage e serverInfo clientProto serverProto query) ++
                match snd (queryStage e serverInfo clientProto serverProto query) with
                | Some response => fst (replyStage e clientProto response)
                | None => []
                end).
  { apply processIncomingQuery_split. exact Hlen. }
  rewrite (queryStage_upstream _ _ _ _ _ _ _ _ _ Hplugins Hsynth) in Htr.
  assert (Hts : ts = [] \/ ts = [EvPackBuffer]).
  { pose proof (synthStage_trace e action synth) as H. rewrite Hsynth in H. exact H. }
  assert (Hts' : none_of is_health_update ts /\ none_of is_client_write ts /\
                 ~ In EvNoticeSuccess ts).
  { unfold none_of. destruct Hts as [-> | ->]; repeat split; repeat constructor;
      simpl; intuition discriminate. }
  destruct Hts' as (Hth & Htw & Hts').
  split; [|split].
  - intros Hproto Henc.
    assert (Heq : tr = EvApplyQueryPlugins clientProto query
                       :: ts ++ [EvEncrypt query' serverProto]).
    { rewrite Htr. unfold upstreamStage. rewrite Hproto, Henc.
      unfold emit, stop, mbind, Proc_bind, bind. cbn [fst snd app].
      rewrite !app_nil_r. reflexivity. }
    split; [exact Heq|]. rewrite Heq. unfold none_of.
    split; (constructor; [reflexivity|]); apply Forall_app; split;
      try assumption; repeat constructor.
  - intros Hproto encryptedQuery clientNonce Henc Hfail.
    destruct (exchange_trace e serverInfo serverProto encryptedQuery clientNonce)
      as [Hq Hh].
    assert (Heq : tr = EvApplyQueryPlugins clientProto query :: ts
          ++ [EvEncrypt query' serverProto; EvNoticeBegin]
          ++ fst (exchange e serverInfo serverProto encryptedQuery clientNonce)
          ++ [EvNoticeFailure]).
    { rewrite Htr. unfold upstreamStage. rewrite Hproto, Henc.
      change (if String.eqb serverProto "udp"
              then exchangeWithUDPServer e serverInfo encryptedQuery clientNonce
              else exchangeWithTCPServer e serverInfo encryptedQuery clientNonce)
        with (exchange e serverInfo serverProto encryptedQuery clientNonce).
      destruct (exchange e serverInfo serverProto encryptedQuery clientNonce)
        as [t r]. cbn [snd fst] in *. subst r.
      unfold call, emit, stop, mbind, Proc_bind, bind. cbn [fst snd app].
      rewrite !app_nil_r. reflexivity. }
    split; [exact Heq|]. split; [exact Hth|]. split; [exact Hh|]. rewrite Heq.
    unfold none_of. constructor; [reflexivity|].
    apply Forall_app. split; [exact Htw|].
    repeat (constructor; [reflexivity|]).
    apply Forall_app. split.
    + eapply Forall_impl; [exact Hq|]. intros ev Hev. apply Hev.
    + repeat constructor.
  - intros Hproto Hfail.
    assert (Hup : fst (upstreamStage e serverInfo serverProto query')
                    = [EvHTTPPost query'] /\
                  snd (upstreamStage e serverInfo serverProto query') = None).
    { unfold upstreamStage. rewrite Hproto. unfold dohFailed in Hfail.
      unfold emit, stop, mbind, Proc_bind, bind.
      destruct (httpErr (HTTPDo e serverInfo query')); cbn [fst snd app];
        [split; reflexivity|].
      destruct (httpResp (HTTPDo e serverInfo query')) as [resp|];
        cbn [fst snd app]; [|split; reflexivity].
      rewrite Hfail. split; reflexivity. }
    destruct Hup as [Hup1 Hup2]. rewrite Htr. unfold bind.
    destruct (upstreamStage e serverInfo serverProto query') as [t r].
    cbn [fst snd] in *. subst t r. cbn [fst snd app]. rewrite app_nil_r.
    split.
    + unfold none_of. constructor; [reflexivity|]. apply Forall_app.
      split; [exact Htw|repeat constructor].
    + intros [Hin|Hin]; [discriminate|]. apply in_app_or in Hin.
      destruct Hin as [Hin|[Hin|[]]]; [exact (Hts' Hin)|discriminate].
Qed.

Lemma failed_exchange_is_silent_witness :
  MinDNSPacketSize (exampleEnv PluginsActionSynth None true None)
    <= len exampleQuery /\
  processIncomingQuery (exampleEnv PluginsActionSynth None true None)
    (Some (exampleServer StampProtoTypeDNSCrypt)) "udp" "udp" exampleQuery
  = EvApplyQueryPlugins "udp" exampleQuery :: []
    ++ [EvEncrypt exampleQuery "udp"; EvNoticeBegin]
    ++ fst (exchange (exampleEnv PluginsActionSynth None true None)
              (exampleServer StampProtoTypeDNSCrypt) "udp" exampleQuery [])
    ++ [EvNoticeFailure].
Proof.
  assert (Hlen : MinDNSPacketSize (exampleEnv PluginsActionSynth None true None)
                   <= len exampleQuery)
    by (vm_compute; discriminate).
  split; [exact Hlen|].
  refine (proj1 (proj1 (proj2 (failed_exchange_is_silent
            (exampleEnv PluginsActionSynth None true None)
            (exampleServer StampProtoTypeDNSCrypt) "udp" "udp" exampleQuery
            exampleQuery PluginsActionSynth None [] Hlen _ _)) _ exampleQuery [] _ _)).
  - reflexivity.
  - reflexivity.
  - reflexivity.
  - reflexivity.
  - reflexivity.
Defined.

(** C2, as stated, fails: [Encrypt] returns an error, and
    [processIncomingQuery] returns without calling [noticeFailure]. *)
Lemma encryption_error_is_not_noticed :
  Encrypt envEncryptFails (exampleServer StampProtoTypeDNSCrypt) exampleQuery "udp"
    = None /\
  ~ In EvNoticeFailure
      (processIncomingQuery envEncryptFails
         (Some (exampleServer StampProtoTypeDNSCrypt)) "udp" "udp" exampleQuery).
Proof.
  split; [reflexivity|]. vm_compute. intros [H|[H|[]]]; discriminate.
Qed.

(** ** More on the pipeline *)

Lemma count_events_app kind t u :
  count_events kind (t ++ u) = (count_events kind t + count_events kind u)%nat.
Proof.
  unfold count_events. induction t as [|ev t IH]; [reflexivity|].
  simpl. destruct (kind ev); simpl; rewrite IH; reflexivity.
Qed.

Lemma count_events_none kind t : none_of kind t -> count_events kind t = 0%nat.
Proof.
  unfold none_of, count_events. induction 1 as [|ev t Hev _ IH]; [reflexivity|].
  simpl. rewrite Hev. exact IH.
Qed.

Lemma none_of_app kind t u : none_of kind t -> none_of kind u -> none_of kind (t ++ u).
Proof. intros Ht Hu. apply Forall_app. split; assumption. Qed.

Lemma none_of_In kind t ev : none_of kind t -> In ev t -> kind ev = false.
Proof.
  intros H Hin. unfold none_of in H. rewrite Forall_forall in H.
  apply H, list_elem_of_In, Hin.
Qed.

(** The query stage: which events it has, and how many health updates. *)
Lemma queryStage_events e serverInfo clientProto serverProto query :
  let t := fst (queryStage e serverInfo clientProto serverProto query) in
  let r := snd (queryStage e serverInfo clientProto serverProto query) in
  none_of is_task_event t /\
  none_of is_client_write t /\
  none_of is_notice_success t /\
  (count_events is_notice_begin t <= 1)%nat /\
  (count_events is_verdict t <= 1)%nat /\
  (r <> None -> count_events is_verdict t = 0%nat) /\
  Forall (fun ev => forall q, upstream_payload ev = Some q ->
                      q = rewrittenQuery e clientProto query) t /\
  (Proto serverInfo = StampProtoTypeDoH -> none_of is_dnscrypt_exchange t) /\
  (Proto serverInfo = StampProtoTypeDNSCrypt -> none_of is_doh_exchange t) /\
  (Proto serverInfo <> StampProtoTypeOther -> none_of is_fatal t) /\
  (String.eqb serverProto "udp" = false -> none_of is_udp_only t).
Proof.
  intros t r. subst t r. unfold rewrittenQuery, none_of, count_events.
  destruct (String.eqb serverProto "udp") eqn:Hsp.
  all: run_proc.
  all: repeat split; intros; try congruence; simpl; try lia.
  all: repeat constructor.
  all: try (intros ? [= <-]; reflexivity).
  all: try discriminate.
Qed.

(** The reply stage: which events it has. *)
Lemma replyStage_events e clientProto response :
  let t := fst (replyStage e clientProto response) in
  none_of is_task_event t /\
  none_of is_notice_begin t /\
  (count_events is_verdict t <= 1)%nat /\
  (count_events is_client_write t <= 1)%nat /\
  count_events is_client_write t = count_events is_notice_success t /\
  Forall (fun ev => upstream_payload ev = None) t /\
  none_of is_dnscrypt_exchange t /\
  none_of is_doh_exchange t /\
  none_of is_fatal t /\
  (String.eqb clientProto "udp" = false -> none_of is_udp_only t).
Proof.
  intros t. subst t. unfold none_of, count_events.
  destruct (String.eqb clientProto "udp") eqn:Hcp.
  all: run_proc.
  all: repeat split; intros; try congruence; simpl; try lia.
  all: repeat constructor.
Qed.

Lemma pipeline_events e serverInfo clientProto serverProto query :
  let tr := processIncomingQuery e serverInfo clientProto serverProto query in
  none_of is_task_event tr /\
  (count_events is_notice_begin tr <= 1)%nat /\
  (count_events is_verdict tr <= 1)%nat /\
  (count_events is_client_write tr <= 1)%nat /\
  count_events is_client_write tr = count_events is_notice_success tr /\
  Forall (fun ev => forall q, upstream_payload ev = Some q ->
                      q = rewrittenQuery e clientProto query) tr /\
  (forall si, serverInfo = Some si ->
     (Proto si = StampProtoTypeDoH -> none_of is_dnscrypt_exchange tr) /\
     (Proto si = StampProtoTypeDNSCrypt -> none_of is_doh_exchange tr) /\
     (Proto si <> StampProtoTypeOther -> none_of is_fatal tr)) /\
  (String.eqb serverProto "udp" = false -> String.eqb clientProto "udp" = false ->
   none_of is_udp_only tr).
Proof.
  intros tr. subst tr.
  destruct (processIncomingQuery_cases e serverInfo clientProto serverProto query)
    as [Hnil | (si & t & Hsi & Hlen & Ht & _ & Hcases)].
  { rewrite Hnil. unfold none_of, count_events. simpl.
    repeat split; try constructor; try lia. }
  destruct (queryStage_events e si clientProto serverProto query)
    as (Q1 & Q2 & Q3 & Q4 & Q5 & Q6 & Q7 & Q8 & Q9 & Q10 & Q11).
  cbv zeta in *. rewrite <- Ht in *.
  destruct Hcases as [Htr | (response & Hresp & Htr)]; rewrite Htr.
  - rewrite (count_events_none _ _ Q2), (count_events_none _ _ Q3).
    refine (conj Q1 (conj Q4 (conj Q5 (conj _ (conj _ (conj Q7 (conj _ (fun H _ => Q11 H)))))))).
    + lia.
    + reflexivity.
    + intros si' Hsi'. rewrite Hsi in Hsi'. injection Hsi' as <-.
      split; [exact Q8|]. split; [exact Q9|exact Q10].
  - destruct (replyStage_events e clientProto response)
      as (R1 & R2 & R3 & R4 & R5 & R6 & R7 & R8 & R9 & R10).
    cbv zeta in *. rewrite Hresp in Q6.
    rewrite !count_events_app.
    rewrite (count_events_none _ _ Q2), (count_events_none _ _ Q3),
      (count_events_none _ _ R2), (Q6 ltac:(discriminate)).
    refine (conj _ (conj _ (conj _ (conj _ (conj _ (conj _ (conj _ _))))))).
    + apply none_of_app; assumption.
    + lia.
    + lia.
    + lia.
    + lia.
    + apply Forall_app. split; [exact Q7|].
      eapply Forall_impl; [exact R6|]. intros ev Hev q Hq. congruence.
    + intros si' Hsi'. rewrite Hsi in Hsi'. injection Hsi' as <-.
      split; [|split]; intros Hp; apply none_of_app; auto.
    + intros Hs Hc. apply none_of_app; [apply Q11|apply R10]; assumption.
Qed.

(** Every query writes at most one packet to the client, and
    [noticeSuccess] is called exactly as often as a packet is written: once
    after the write, never without one. *)
Theorem one_reply_and_noticeSuccess_with_it e serverInfo clientProto serverProto query :
  let tr := processIncomingQuery e serverInfo clientProto serverProto query in
  (count_events is_client_write tr <= 1)%nat /\
  count_events is_client_write tr = count_events is_notice_success tr.
Proof.
  intros tr.
  destruct (pipeline_events e serverInfo clientProto serverProto query)
    as (_ & _ & _ & Hw & Hs & _).
  split; assumption.
Qed.

(** Every query ends with at most one verdict on the server (a single
    [noticeFailure] or a single [noticeSuccess], never both), and calls
    [noticeBegin] at most once. *)
Theorem at_most_one_verdict e serverInfo clientProto serverProto query :
  let tr := processIncomingQuery e serverInfo clientProto serverProto query in
  (count_events is_verdict tr <= 1)%nat /\
  (count_events is_notice_begin tr <= 1)%nat.
Proof.
  intros tr.
  destruct (pipeline_events e serverInfo clientProto serverProto query)
    as (_ & Hb & Hv & _).
  split; assumption.
Qed.

(** The server's protocol decides the transport: with a DoH server there
    is no [Encrypt], no [noticeBegin] and no UDP or TCP exchange, with a
    DNSCrypt server no HTTP request, and [dlog.Fatal] is reached for neither
    of the two. *)
Theorem protocol_decides_transport e serverInfo clientProto serverProto query :
  let tr := processIncomingQuery e (Some serverInfo) clientProto serverProto query in
  (Proto serverInfo = StampProtoTypeDoH -> none_of is_dnscrypt_exchange tr) /\
  (Proto serverInfo = StampProtoTypeDNSCrypt -> none_of is_doh_exchange tr) /\
  (Proto serverInfo <> StampProtoTypeOther -> none_of is_fatal tr).
Proof.
  intros tr.
  destruct (pipeline_events e (Some serverInfo) clientProto serverProto query)
    as (_ & _ & _ & _ & _ & _ & Hp & _).
  exact (Hp serverInfo eq_refl).
Qed.

Lemma protocol_decides_transport_witness :
  none_of is_dnscrypt_exchange
    (processIncomingQuery envSmallReply (Some (exampleServer StampProtoTypeDoH))
       "udp" "udp" exampleQuery).
Proof.
  exact (proj1 (protocol_decides_transport envSmallReply
                  (exampleServer StampProtoTypeDoH) "udp" "udp" exampleQuery)
               eq_refl).
Defined.

(** What goes to the upstream server, encrypted or posted over HTTPS, is
    the query as the query plugins rewrote it, never the query as it was
    received. *)
Theorem upstream_gets_the_rewritten_query e serverInfo clientProto serverProto
    query ev q :
  In ev (processIncomingQuery e serverInfo clientProto serverProto query) ->
  upstream_payload ev = Some q ->
  q = rewrittenQuery e clientProto query.
Proof.
  intros Hin Hq.
  destruct (pipeline_events e serverInfo clientProto serverProto query)
    as (_ & _ & _ & _ & _ & Hp & _).
  cbv zeta in Hp. rewrite Forall_forall in Hp.
  apply (Hp ev); [apply list_elem_of_In; exact Hin|exact Hq].
Qed.

Lemma upstream_gets_the_rewritten_query_witness :
  exampleQuery = rewrittenQuery envSmallReply "udp" exampleQuery.
Proof.
  refine (upstream_gets_the_rewritten_query envSmallReply
            (Some (exampleServer StampProtoTypeDoH)) "udp" "udp" exampleQuery
            (EvHTTPPost exampleQuery) exampleQuery _ eq_refl).
  vm_compute. right. left. reflexivity.
Defined.

(** A query the plugins decide to drop leaves no trace outside the plugin
    chain: nothing is written to the client, nothing is sent upstream, the
    server's health record and the estimator are not touched, and the
    response plugins do not run, whether or not a response was
    synthesized. *)
Theorem dropped_query_is_silent e serverInfo clientProto serverProto query :
  snd (fst (ApplyQueryPlugins e clientProto query)) = PluginsActionDrop ->
  let tr := processIncomingQuery e serverInfo clientProto serverProto query in
  none_of is_client_write tr /\ none_of is_upstream_contact tr /\
  none_of is_health_update tr /\ none_of is_estimator_update tr /\
  none_of is_response_plugin_call tr.
Proof.
  intros Hdrop tr. subst tr. unfold none_of, processIncomingQuery.
  destruct serverInfo as [si|]; [|repeat split; constructor].
  destruct (len query <? MinDNSPacketSize e); [repeat split; constructor|].
  unfold queryStage.
  destruct (ApplyQueryPlugins e clientProto query) as [[query' action] synth].
  cbn [fst snd] in Hdrop. subst action. unfold synthStage.
  cbn [PluginsAction_eqb negb]. unfold_proc.
  destruct synth as [m|]; [destruct (PackBuffer e m)|]; cbn [fst snd app];
    repeat split; repeat constructor.
Qed.

Lemma dropped_query_is_silent_witness :
  none_of is_client_write
    (processIncomingQuery (exampleEnv PluginsActionDrop None true None)
       (Some (exampleServer StampProtoTypeDNSCrypt)) "udp" "udp" exampleQuery).
Proof.
  exact (proj1 (dropped_query_is_silent (exampleEnv PluginsActionDrop None true None)
                  (Some (exampleServer StampProtoTypeDNSCrypt)) "udp" "udp"
                  exampleQuery eq_refl)).
Defined.

Lemma count_events_zero kind t : count_events kind t = 0%nat -> none_of kind t.
Proof.
  unfold count_events, none_of. induction t as [|ev t IH]; intros H; [constructor|].
  simpl in H. destruct (kind ev) eqn:Hk; [discriminate|].
  constructor; [exact Hk|apply IH; exact H].
Qed.

(** A DoH exchange that gives no usable response ([client.Do] fails, there
    is no response, or its status is outside 200..299) or whose body cannot
    be read ends the query without any health update on the server, and
    with nothing written to the client. *)
Theorem failed_doh_exchange_updates_no_health e serverInfo clientProto serverProto
    query query' synth :
  MinDNSPacketSize e <= len query ->
  ApplyQueryPlugins e clientProto query = (query', PluginsActionForward, synth) ->
  Proto serverInfo = StampProtoTypeDoH ->
  dohFailed (HTTPDo e serverInfo query') = true \/
  (exists resp, httpResp (HTTPDo e serverInfo query') = Some resp /\ Body resp = None) ->
  let tr := processIncomingQuery e (Some serverInfo) clientProto serverProto query in
  none_of is_health_update tr /\ none_of is_client_write tr.
Proof.
  intros Hlen Hplugins Hproto Hfail tr. subst tr.
  rewrite (processIncomingQuery_split _ _ _ _ _ Hlen).
  rewrite (queryStage_forward _ _ _ _ _ _ _ Hplugins).
  unfold upstreamStage, dohFailed, none_of in *. rewrite Hproto. unfold_proc.
  destruct (httpErr (HTTPDo e serverInfo query')); cbn [fst snd app].
  { split; repeat constructor. }
  destruct (httpResp (HTTPDo e serverInfo query')) as [resp|]; cbn [fst snd app].
  2: { split; repeat constructor. }
  destruct ((StatusCode resp <? 200) || (299 <? StatusCode resp)); cbn [fst snd app].
  { split; repeat constructor. }
  destruct Hfail as [Hfail | (resp' & [= <-] & Hbody)]; [discriminate|].
  rewrite Hbody. cbn [fst snd app]. split; repeat constructor.
Qed.

Lemma failed_doh_exchange_updates_no_health_witness :
  MinDNSPacketSize envNoReply <= len exampleQuery /\
  none_of is_health_update
    (processIncomingQuery envNoReply (Some (exampleServer StampProtoTypeDoH))
       "udp" "udp" exampleQuery).
Proof.
  assert (Hlen : MinDNSPacketSize envNoReply <= len exampleQuery)
    by (vm_compute; discriminate).
  split; [exact Hlen|].
  refine (proj1 (failed_doh_exchange_updates_no_health envNoReply
            (exampleServer StampProtoTypeDoH) "udp" "udp" exampleQuery exampleQuery
            None Hlen eq_refl eq_refl _)).
  left. reflexivity.
Defined.

(** When the response for a UDP client is of admissible size but longer
    than [MaxDNSUDPPacketSize] and [TruncatedResponse] fails on it, the
    query ends there: nothing is written to the client and the server gets
    no verdict, neither [noticeFailure] nor [noticeSuccess], even after a
    [noticeBegin]. *)
Theorem failed_truncation_ends_silently e serverInfo serverProto query t response :
  MinDNSPacketSize e <= len query ->
  queryStage e serverInfo "udp" serverProto query = (t, Some response) ->
  MinDNSPacketSize e <= len response <= MaxDNSPacketSize e ->
  MaxDNSUDPPacketSize e < len response ->
  TruncatedResponse e response = None ->
  let tr := processIncomingQuery e (Some serverInfo) "udp" serverProto query in
  tr = t /\ none_of is_client_write tr /\ none_of is_verdict tr.
Proof.
  intros Hlen Hq Hrange Hbig Htrunc tr. subst tr.
  rewrite (processIncomingQuery_split _ _ _ _ _ Hlen).
  destruct (queryStage_events e serverInfo "udp" serverProto query)
    as (_ & Q2 & _ & _ & _ & Q6 & _).
  cbv zeta in *. rewrite Hq in *. cbn [fst snd] in *.
  rewrite (replyStage_in_range_udp _ _ Hrange). unfold udpPacket.
  apply Z.ltb_lt in Hbig. rewrite Hbig, Htrunc. cbn [fst]. rewrite app_nil_r.
  split; [reflexivity|]. split; [exact Q2|].
  apply count_events_zero, Q6. discriminate.
Qed.

Lemma failed_truncation_ends_silently_witness :
  none_of is_verdict
    (processIncomingQuery envTruncationFails
       (Some (exampleServer StampProtoTypeDNSCrypt)) "udp" "udp" exampleQuery) /\
  In EvNoticeBegin
    (processIncomingQuery envTruncationFails
       (Some (exampleServer StampProtoTypeDNSCrypt)) "udp" "udp" exampleQuery).
Proof.
  split.
  - refine (proj2 (proj2 (failed_truncation_ends_silently envTruncationFails
              (exampleServer StampProtoTypeDNSCrypt) "udp" exampleQuery
              (fst (queryStage envTruncationFails
                      (exampleServer StampProtoTypeDNSCrypt) "udp" "udp" exampleQuery))
              (examplePacket x81 1300) _ _ _ _ _))).
    + vm_compute. discriminate.
    + vm_compute. reflexivity.
    + split; vm_compute; discriminate.
    + vm_compute. reflexivity.
    + reflexivity.
  - vm_compute. do 2 right. left. reflexivity.
Defined.

(** A client of any protocol other than UDP only ever gets a
    length-prefixed packet: whatever is written to it is [PrefixWithSize] of
    a response of admissible size, and when [PrefixWithSize] fails on such
    a response nothing is written and [noticeFailure] is called. *)
Theorem stream_reply_is_prefixed e serverInfo clientProto serverProto query :
  String.eqb clientProto "udp" = false ->
  let tr := processIncomingQuery e serverInfo clientProto serverProto query in
  (forall ev, In ev tr -> is_client_write ev = true ->
     exists si response prefixed,
       serverInfo = Some si /\
       snd (queryStage e si clientProto serverProto query) = Some response /\
       MinDNSPacketSize e <= len response <= MaxDNSPacketSize e /\
       PrefixWithSize e response = Some prefixed /\
       ev = EvWrite prefixed) /\
  (forall si response,
     serverInfo = Some si -> MinDNSPacketSize e <= len query ->
     snd (queryStage e si clientProto serverProto query) = Some response ->
     MinDNSPacketSize e <= len response <= MaxDNSPacketSize e ->
     PrefixWithSize e response = None ->
     tr = fst (queryStage e si clientProto serverProto query) ++ [EvNoticeFailure]).
Proof.
  intros Hproto tr. subst tr. split.
  - intros ev Hin Hw.
    destruct (processIncomingQuery_cases e serverInfo clientProto serverProto query)
      as [Hnil | (si & t & -> & Hlen & _ & Hq & [Htr | (response & Hresp & Htr)])].
    + rewrite Hnil in Hin. destruct Hin.
    + rewrite Htr in Hin. in_inv.
    + rewrite Htr in Hin. clear Htr.
      destruct (replyStage_cases e clientProto response)
        as [Hr | [[Hr Hudp] | [(Hudp & Hrange & packet & Hp & Hr)
                              | (Hudp & Hrange & prefixed & Hp & Hr)]]];
        rewrite Hr in Hin; clear Hr.
      * in_inv; eq_inv; discriminate.
      * in_inv.
      * subst clientProto. discriminate.
      * exists si, response, prefixed. repeat split; try assumption; try lia.
        in_inv; eq_inv; try reflexivity; discriminate.
  - intros si response -> Hlen Hresp Hrange Hprefix.
    rewrite (processIncomingQuery_split _ _ _ _ _ Hlen), Hresp.
    rewrite (replyStage_in_range_other _ _ _ Hproto Hrange), Hprefix. reflexivity.
Qed.

Lemma stream_reply_is_prefixed_witness :
  exists si response prefixed,
    Some (exampleServer StampProtoTypeDNSCrypt) = Some si /\
    snd (queryStage envSynth si "tcp" "tcp" exampleQuery) = Some response /\
    MinDNSPacketSize envSynth <= len response <= MaxDNSPacketSize envSynth /\
    PrefixWithSize envSynth response = Some prefixed /\
    EvWrite (x00 :: x14 :: examplePacket x81 8) = EvWrite prefixed.
Proof.
  refine (proj1 (stream_reply_is_prefixed envSynth
            (Some (exampleServer StampProtoTypeDNSCrypt)) "tcp" "tcp" exampleQuery
            eq_refl) (EvWrite (x00 :: x14 :: examplePacket x81 8)) _ eq_refl).
  vm_compute. do 2 right. left. reflexivity.
Defined.

(** A socket that [exchangeWithUDPServer] opened is closed exactly once on
    every path.  [exchangeWithTCPServer] closes its connection exactly once
    when [PrefixWithSize] succeeds, but returns without closing it when
    [PrefixWithSize] fails on the encrypted query. *)
Theorem upstream_sockets_closed e serverInfo encryptedQuery clientNonce :
  (DialUDP e serverInfo = true ->
   count_events is_upstream_close
     (fst (exchangeWithUDPServer e serverInfo encryptedQuery clientNonce)) = 1%nat) /\
  (DialTCP e serverInfo = true ->
   count_events is_upstream_close
     (fst (exchangeWithTCPServer e serverInfo encryptedQuery clientNonce))
   = match PrefixWithSize e encryptedQuery with Some _ => 1%nat | None => 0%nat end) /\
  (DialUDP e serverInfo = false ->
   fst (exchangeWithUDPServer e serverInfo encryptedQuery clientNonce) = [EvDialUDP]) /\
  (DialTCP e serverInfo = false ->
   fst (exchangeWithTCPServer e serverInfo encryptedQuery clientNonce) = [EvDialTCP]).
Proof.
  unfold exchangeWithUDPServer, exchangeWithTCPServer, count_events.
  repeat split; intros Hd; rewrite Hd; cbn [negb].
  - destruct (UDPRead e serverInfo encryptedQuery); reflexivity.
  - destruct (PrefixWithSize e encryptedQuery) as [q'|]; [|reflexivity].
    destruct (ReadPrefixed e serverInfo q'); reflexivity.
  - reflexivity.
  - reflexivity.
Qed.

Lemma upstream_sockets_closed_witness :
  count_events is_upstream_close
    (fst (exchangeWithUDPServer envNoReply (exampleServer StampProtoTypeDNSCrypt)
            exampleQuery [])) = 1%nat.
Proof.
  exact (proj1 (upstream_sockets_closed envNoReply
                  (exampleServer StampProtoTypeDNSCrypt) exampleQuery []) eq_refl).
Defined.

Lemma task_event_kinds ev :
  is_task_event ev = false ->
  is_clientsCountDec ev = false /\ ev <> EvClientClose /\ ev <> EvGetOne.
Proof. destruct ev; simpl; intros H; repeat split; congruence. Qed.

Lemma pipeline_never_decrements e serverInfo clientProto serverProto query :
  count_events is_clientsCountDec
    (processIncomingQuery e serverInfo clientProto serverProto query) = 0%nat.
Proof.
  apply count_events_none.
  destruct (pipeline_events e serverInfo clientProto serverProto query) as (Ht & _).
  eapply Forall_impl; [exact Ht|]. intros ev Hev. apply (task_event_kinds ev Hev).
Qed.

Lemma exited_false t : exited t = false <-> none_of is_fatal t.
Proof.
  unfold exited, none_of. induction t as [|ev t IH]; simpl.
  - split; [constructor|reflexivity].
  - rewrite orb_false_iff, IH. split.
    + intros [Hev Ht]. constructor; assumption.
    + intros H. apply Forall_cons in H. exact H.
Qed.

Lemma exited_counts t :
  exited t = true \/
  (exited t = false /\ exited (t ++ [EvClientsCountDec]) = false /\
   exited (t ++ [EvClientsCountDec; EvClientClose]) = false).
Proof.
  destruct (exited t) eqn:Hx; [left; reflexivity|right].
  split; [reflexivity|]. apply exited_false in Hx.
  split; apply exited_false; apply none_of_app; try exact Hx; repeat constructor.
Qed.

Lemma pipeline_never_closes e serverInfo clientProto serverProto query :
  count_events is_client_close
    (processIncomingQuery e serverInfo clientProto serverProto query) = 0%nat.
Proof.
  apply count_events_none.
  destruct (pipeline_events e serverInfo clientProto serverProto query) as (Ht & _).
  eapply Forall_impl; [exact Ht|]. intros ev Hev. destruct ev; try reflexivity;
    discriminate.
Qed.

Lemma pipeline_exits_only_on_unsupported_protocol e getOne clientProto serverProto
    query :
  (forall si, getOne = Some si -> Proto si <> StampProtoTypeOther) ->
  exited (processIncomingQuery e getOne clientProto serverProto query) = false.
Proof.
  intros Hproto. apply exited_false. destruct getOne as [si|]; [|constructor].
  destruct (pipeline_events e (Some si) clientProto serverProto query)
    as (_ & _ & _ & _ & _ & _ & Hp & _).
  apply (Hp si eq_refl). apply Hproto. reflexivity.
Qed.

(** A task that [clientsCountInc] admitted calls [clientsCountDec] exactly
    once, as the last thing it does (the TCP task then closes the client
    connection), unless the process has exited through [dlog.Fatal], after
    which no deferred call runs; a rejected task never calls it.  The
    process exits in a task only when the server's protocol is neither
    DNSCrypt nor DoH. *)
Theorem tasks_release_exactly_what_they_reserved e admitted getOne mainProto
    packet read :
  let u := udpTask e admitted getOne mainProto packet in
  let t := tcpTask e admitted read getOne in
  (exited u = false ->
     count_events is_clientsCountDec u = (if admitted then 1%nat else 0%nat) /\
     (admitted = true -> last u = Some EvClientsCountDec)) /\
  (exited t = false ->
     count_events is_clientsCountDec t = (if admitted then 1%nat else 0%nat) /\
     count_events is_client_close t = 1%nat /\
     last t = Some EvClientClose) /\
  (exited u = true -> count_events is_clientsCountDec u = 0%nat) /\
  (exited t = true ->
     count_events is_clientsCountDec t = 0%nat /\
     count_events is_client_close t = 0%nat) /\
  ((forall si, getOne = Some si -> Proto si <> StampProtoTypeOther) ->
     exited u = false /\ exited t = false).
Proof.
  intros u t. subst u t. unfold udpTask, tcpTask.
  destruct admitted; cbn [negb]; cbv zeta.
  2: { repeat split; try reflexivity; discriminate. }
  set (ub := EvGetOne :: processIncomingQuery e getOne "udp" mainProto packet).
  set (tb := EvSetDeadline ::
             match read with
             | Some p =>
                 if len p <? MinDNSPacketSize e then []
                 else EvGetOne :: processIncomingQuery e getOne "tcp" "tcp" p
             | None => []
             end).
  assert (Hub : count_events is_clientsCountDec ub = 0%nat).
  { subst ub. change (EvGetOne :: ?l) with ([EvGetOne] ++ l).
    rewrite count_events_app, pipeline_never_decrements. reflexivity. }
  assert (Htb : count_events is_clientsCountDec tb = 0%nat /\
                count_events is_client_close tb = 0%nat).
  { subst tb. destruct read as [p|]; [destruct (len p <? MinDNSPacketSize e)|];
      try (split; reflexivity).
    change (EvSetDeadline :: EvGetOne :: ?l) with ([EvSetDeadline; EvGetOne] ++ l).
    rewrite !count_events_app, pipeline_never_decrements, pipeline_never_closes.
    split; reflexivity. }
  destruct Htb as [Htd Htc].
  destruct (exited_counts ub) as [Hu | (Hu & Hu' & _)]; rewrite Hu;
    destruct (exited_counts tb) as [Ht | (Ht & _ & Ht')]; rewrite Ht;
    rewrite ?Hu, ?Hu', ?Ht, ?Ht', ?count_events_app, ?Hub, ?Htd, ?Htc.
  all: refine (conj _ (conj _ (conj _ (conj _ _)))).
  all: try (intros H; discriminate H).
  all: try (intros _;
            repeat (split; [solve [reflexivity | apply last_snoc]|]);
            first [ solve [reflexivity | apply last_snoc]
                  | intros _; solve [apply last_snoc]
                  | change [EvClientsCountDec; EvClientClose]
                      with ([EvClientsCountDec] ++ [EvClientClose]);
                    rewrite app_assoc; solve [apply last_snoc] ]).
  all: intros Hproto.
  all: assert (Hux : exited ub = false)
         by (subst ub; apply (pipeline_exits_only_on_unsupported_protocol
                                e getOne "udp" mainProto packet Hproto)).
  all: assert (Htx : exited tb = false)
         by (subst tb; destruct read as [p|];
             [destruct (len p <? MinDNSPacketSize e)|]; try reflexivity;
             apply (pipeline_exits_only_on_unsupported_protocol
                      e getOne "tcp" "tcp" p Hproto)).
  all: try congruence.
  all: split; reflexivity.
Qed.

Lemma tasks_release_exactly_what_they_reserved_witness :
  last (udpTask envSmallReply true (Some (exampleServer StampProtoTypeDNSCrypt))
          "udp" exampleQuery) = Some EvClientsCountDec.
Proof.
  refine (proj2 (proj1 (tasks_release_exactly_what_they_reserved envSmallReply
            true (Some (exampleServer StampProtoTypeDNSCrypt)) "udp" exampleQuery None)
            _) eq_refl).
  vm_compute. reflexivity.
Defined.

(** A query that came in over TCP never causes a UDP exchange with the
    server, a [WriteTo] on the client socket or an estimator update. *)
Theorem tcp_task_never_uses_udp e admitted read getOne :
  none_of is_udp_only (tcpTask e admitted read getOne).
Proof.
  unfold tcpTask, none_of. destruct admitted; cbn [negb]; [|repeat constructor].
  cbv zeta.
  assert (Hbody : Forall (fun ev => is_udp_only ev = false)
            (EvSetDeadline ::
             match read with
             | Some p =>
                 if len p <? MinDNSPacketSize e then []
                 else EvGetOne :: processIncomingQuery e getOne "tcp" "tcp" p
             | None => []
             end)).
  { constructor; [reflexivity|].
    destruct read as [p|]; [|constructor].
    destruct (len p <? MinDNSPacketSize e); [constructor|].
    constructor; [reflexivity|].
    destruct (pipeline_events e getOne "tcp" "tcp" p) as (_ & _ & _ & _ & _ & _ & _ & H).
    apply H; reflexivity. }
  match goal with |- context [if ?b then _ else _] => destruct b end.
  - exact Hbody.
  - apply Forall_app. split; [exact Hbody|repeat constructor].
Qed.

End PipelineFacts.

(** ** The listener loops *)

Section ListenerFacts.
Import Pipeline.

(** C10, where the code departs from it: [udpListener] returns at the
    first failed read, but [tcpListener] does not return on a failed
    [Accept]: whatever the results of [Accept], errors included, the loop
    is at the top of a further iteration when they are used up, and a
    listener whose [Accept] only fails has handed out no connection and is
    still looping. *)
Theorem tcpListener_loops_on_accept_error :
  (forall e (packets : list bytes) (rest : list (option bytes)),
     snd (udpListener e (map Some packets ++ None :: rest)) = Returned) /\
  (forall (Conn : Type) (accepts : list (option Conn)),
     snd (tcpListener accepts) = Looping) /\
  (forall (Conn : Type) (n : nat),
     tcpListener (repeat (@None Conn) n) = ([], Looping)).
Proof.
  split; [|split].
  - intros e packets rest. induction packets as [|packet packets IH]; [reflexivity|].
    simpl. destruct (udpListener e (map Some packets ++ None :: rest)) as [ps status].
    exact IH.
  - intros Conn accepts. induction accepts as [|[clientPc|] accepts IH];
      [reflexivity| |exact IH].
    simpl. destruct (tcpListener accepts) as [conns status]. exact IH.
  - intros Conn n. induction n as [|n IH]; [reflexivity|exact IH].
Qed.

End ListenerFacts.

(** ** Key generation *)

Section StartupFacts.
Import Pipeline Startup.




(** The model does not make the keys equal by construction: were
    [ConfigLoad] to seed the generator with the time of day, two runs at
    different times would get different keys. *)
Lemma seeding_would_change_the_keys :
  exists proxy1 proxy2,
    main seedingAbsent (fun secret => secret) 1000 = Some proxy1 /\
    main seedingAbsent (fun secret => secret) 2000 = Some proxy2 /\
    proxySecretKey proxy1 <> proxySecretKey proxy2.
Proof.
  eexists _, _. split; [reflexivity|]. split; [reflexivity|].
  vm_compute. discriminate.
Qed.

End StartupFacts.

(** ** The dial hook *)

Section DialerFacts.
Import Dialer.

Lemma LastIndexFrom_absent c s : forall i found,
  str_contains c s = false -> LastIndexFrom c s i found = found.
Proof.
  induction s as [|a s IH]; intros i found Hc; [reflexivity|].
  simpl in *. apply orb_false_iff in Hc. destruct Hc as [Ha Hs].
  rewrite Ha. apply IH. exact Hs.
Qed.

Lemma LastIndexFrom_present c s : forall i found,
  str_contains c s = true ->
  i <= LastIndexFrom c s i found < i + str_len s.
Proof.
  unfold str_len. induction s as [|a s IH]; intros i found Hc; [discriminate|].
  cbn [LastIndexFrom String.length]. rewrite Nat2Z.inj_succ.
  destruct (str_contains c s) eqn:Hs.
  - specialize (IH (i + 1) (if Ascii.eqb a c then i else found) eq_refl). lia.
  - rewrite LastIndexFrom_absent by exact Hs.
    simpl in Hc. rewrite Hs, orb_false_r in Hc. rewrite Hc. lia.
Qed.

Lemma LastIndexFrom_last c host port : forall i found,
  str_contains c port = false ->
  LastIndexFrom c (String.append host (String c port)) i found = i + str_len host.
Proof.
  unfold str_len. induction host as [|a host IH]; intros i found Hp.
  - simpl. rewrite Ascii.eqb_refl. rewrite LastIndexFrom_absent by exact Hp. lia.
  - change (String.append (String a host) (String c port))
      with (String a (String.append host (String c port))).
    cbn [LastIndexFrom String.length]. rewrite Nat2Z.inj_succ.
    rewrite IH by exact Hp. lia.
Qed.

Lemma str_take_append host rest :
  str_take (String.length host) (String.append host rest) = host.
Proof. induction host as [|a host IH]; simpl; [destruct rest|rewrite IH]; reflexivity. Qed.

Lemma str_drop_append host rest :
  str_drop (String.length host) (String.append host rest) = rest.
Proof. induction host as [|a host IH]; simpl; [reflexivity|exact IH]. Qed.

Lemma str_len_append a b : str_len (String.append a b) = str_len a + str_len b.
Proof.
  unfold str_len. induction a as [|x a IH].
  { change (String.append EmptyString b) with b. simpl. lia. }
  change (String.append (String x a) b) with (String x (String.append a b)).
  cbn [String.length]. rewrite !Nat2Z.inj_succ. lia.
Qed.

Lemma str_len_nonneg s : 0 <= str_len s.
Proof. unfold str_len. lia. Qed.

Lemma dialAddress_split (cache : gmap string string) (host port : string) :
  str_contains ":" port = false ->
  dialAddress cache (String.append host (String ":" port)) =
    Some (String.append
            (match cache !! host with
             | Some (String a ip) => String a ip
             | _ => host
             end)
            (String ":" port)).
Proof.
  intros Hport. unfold dialAddress, LastIndex.
  rewrite (LastIndexFrom_last ":" host port 0 (-1) Hport).
  unfold slice_to, slice_from. rewrite str_len_append.
  pose proof (str_len_nonneg host) as Hh.
  pose proof (str_len_nonneg (String ":" port)) as Hp.
  replace (0 + str_len host <? 0) with false by (symmetry; apply Z.ltb_ge; lia).
  replace (str_len host + str_len (String ":" port) <? 0 + str_len host)
    with false by (symmetry; apply Z.ltb_ge; lia).
  cbn [orb].
  assert (Hn : Z.to_nat (0 + str_len host) = String.length host)
    by (unfold str_len; lia).
  rewrite !Hn, str_take_append, str_drop_append.
  destruct (cache !! host) as [[|a ip]|]; reflexivity.
Qed.

Lemma slice_from_split host port :
  str_contains ":" port = false ->
  slice_from (String.append host (String ":" port))
             (LastIndex (String.append host (String ":" port)) ":")
    = Some (String ":" port).
Proof.
  intros Hport. unfold LastIndex.
  rewrite (LastIndexFrom_last ":" host port 0 (-1) Hport).
  unfold slice_from. rewrite str_len_append.
  pose proof (str_len_nonneg host) as Hh.
  pose proof (str_len_nonneg (String ":" port)) as Hp.
  replace (0 + str_len host <? 0) with false by (symmetry; apply Z.ltb_ge; lia).
  replace (str_len host + str_len (String ":" port) <? 0 + str_len host)
    with false by (symmetry; apply Z.ltb_ge; lia).
  cbn [orb].
  assert (Hn : Z.to_nat (0 + str_len host) = String.length host)
    by (unfold str_len; lia).
  rewrite Hn, str_drop_append. reflexivity.
Qed.

Lemma str_contains_split c s :
  str_contains c s = true ->
  exists host port,
    s = String.append host (String c port) /\ str_contains c port = false.
Proof.
  induction s as [|a s IH]; [discriminate|]. intros Hc.
  destruct (str_contains c s) eqn:Hs.
  - destruct (IH eq_refl) as (host & port & -> & Hp).
    exists (String a host), port. split; [reflexivity|exact Hp].
  - simpl in Hc. rewrite Hs, orb_false_r in Hc. apply Ascii.eqb_eq in Hc. subst a.
    exists EmptyString, s. split; [reflexivity|exact Hs].
Qed.

(** The hook splits the address at its last colon: for [host:port] with a
    colon-free port, the address dialled is the cached IP of [host]
    followed by the same [:port] when the cache has a non-empty entry for
    [host], and the address itself otherwise. *)
Theorem dialAddress_host_port (cache : gmap string string) (host port : string) :
  str_contains ":" port = false ->
  dialAddress cache (String.append host (String ":" port)) =
    Some (String.append
            (match cache !! host with
             | Some (String a ip) => String a ip
             | _ => host
             end)
            (String ":" port)).
Proof. apply dialAddress_split. Qed.

Lemma dialAddress_host_port_witness :
  dialAddress (<["dns.example"%string := "192.0.2.7"%string]> ∅)
              "dns.example:443" = Some "192.0.2.7:443"%string.
Proof.
  exact (dialAddress_host_port (<["dns.example"%string := "192.0.2.7"%string]> ∅)
           "dns.example" "443" eq_refl).
Defined.

(** The hook panics (slice bounds out of range) exactly on an address
    without a colon; on every other address it dials an address that ends
    with the part of the input from its last colon on. *)
Theorem dialAddress_panics_without_colon (cache : gmap string string)
    (addrStr : string) :
  (dialAddress cache addrStr = None <-> str_contains ":" addrStr = false) /\
  (forall dialled, dialAddress cache addrStr = Some dialled ->
     exists ipOnly port,
       str_contains ":" port = false /\
       dialled = String.append ipOnly (String ":" port) /\
       slice_from addrStr (LastIndex addrStr ":") = Some (String ":" port)).
Proof.
  destruct (str_contains ":" addrStr) eqn:Hc.
  - destruct (str_contains_split _ _ Hc) as (host & port & -> & Hport).
    rewrite (dialAddress_split cache host port Hport). split.
    + split; discriminate.
    + intros dialled [= <-]. eexists _, port.
      split; [exact Hport|]. split; [reflexivity|].
      apply slice_from_split. exact Hport.
  - assert (Hnone : dialAddress cache addrStr = None).
    { unfold dialAddress, LastIndex. rewrite LastIndexFrom_absent by exact Hc.
      reflexivity. }
    rewrite Hnone. split; [split; reflexivity|]. discriminate.
Qed.

Lemma dialAddress_panics_without_colon_witness :
  dialAddress (<["dns.example"%string := "192.0.2.7"%string]> ∅) "dns.example" = None.
Proof.
  exact (proj2 (proj1 (dialAddress_panics_without_colon
           (<["dns.example"%string := "192.0.2.7"%string]> ∅) "dns.example")) eq_refl).
Defined.

End DialerFacts.

(** ** More on the admission counter *)

Section AdmissionMoreFacts.
Import Admission.

(** Run without interference, [clientsCountInc] at a counter below the cap
    returns true after its read and its compare-and-swap with the counter
    raised by one, and the [clientsCountDec] that follows brings the counter
    back to where it was; at or above the cap [clientsCountInc] returns
    false at once and leaves the counter alone. *)
Theorem clientsCountInc_then_Dec_restores (maxClients count : Z) :
  0 <= count -> maxClients <= uint32_max ->
  (count < maxClients ->
     clientsCountInc_alone 2 maxClients count AtLoad = Some (count + 1, true) /\
     clientsCountDec_alone 2 (count + 1) AtLoad = Some count) /\
  (maxClients <= count ->
     clientsCountInc_alone 1 maxClients count AtLoad = Some (count, false)).
Proof.
  intros H0 Hmax. split.
  - intros Hlt. split.
    + simpl. destruct (Z.leb_spec maxClients count); [lia|].
      simpl. unfold CompareAndSwapUint32. rewrite Z.eqb_refl.
      rewrite wrap32_small by lia. reflexivity.
    + simpl. destruct (Z.eqb_spec (count + 1) 0); [lia|].
      simpl. unfold CompareAndSwapUint32. rewrite Z.eqb_refl.
      replace (count + 1 - 1) with count by lia.
      rewrite wrap32_small by lia. reflexivity.
  - intros Hge. simpl. destruct (Z.leb_spec maxClients count); [reflexivity|lia].
Qed.

Lemma clientsCountInc_then_Dec_restores_witness :
  clientsCountInc_alone 2 250 7 AtLoad = Some (7 + 1, true) /\
  clientsCountDec_alone 2 (7 + 1) AtLoad = Some 7.
Proof.
  refine (proj1 (clientsCountInc_then_Dec_restores 250 7 _ _) _).
  - lia.
  - unfold uint32_max. lia.
  - lia.
Defined.

Lemma in_flight_zero ts :
  in_flight ts = 0 -> Forall (fun t : Task => holds_reservation (snd t) = false) ts.
Proof.
  induction ts as [|[k pc] ts IH]; intros H; [constructor|].
  rewrite in_flight_cons in H. pose proof (in_flight_nonneg ts) as Hnn.
  pose proof (weight_range pc) as Hw. constructor.
  - simpl. unfold weight in *. destruct (holds_reservation pc); [lia|reflexivity].
  - apply IH. lia.
Qed.

(** With [maxClients] set to zero no query is ever served: in every
    execution the counter stays at zero and no task holds a reservation, so
    none is reading a TCP packet or inside [processIncomingQuery]. *)
Theorem maxClients_zero_admits_nothing (sched : list Action) :
  clientsCount (run 0 sched) = 0 /\
  Forall (fun t : Task => holds_reservation (snd t) = false) (tasks (run 0 sched)).
Proof.
  assert (Hr : 0 <= 0 <= uint32_max) by (unfold uint32_max; lia).
  destruct (run_inv 0 sched Hr) as [Hcount Hbound _].
  pose proof (in_flight_nonneg (tasks (run 0 sched))) as Hnn.
  assert (Hz : in_flight (tasks (run 0 sched)) = 0) by lia.
  split; [lia|]. apply in_flight_zero. exact Hz.
Qed.

Lemma exec_Step_solo maxClients s i io k pc :
  tasks s !! i = Some (k, pc) ->
  clientsCount (exec maxClients s (Step i io))
    = fst (task_step maxClients (clientsCount s) io (k, pc)) /\
  tasks (exec maxClients s (Step i io)) !! i
    = Some (snd (task_step maxClients (clientsCount s) io (k, pc))).
Proof.
  intros Hi. rewrite (exec_Step_lookup _ _ _ _ _ _ Hi). simpl. split; [reflexivity|].
  apply list_lookup_insert_eq. eapply lookup_lt_Some. exact Hi.
Qed.

Lemma task_step_kind maxClients c io k pc :
  fst (snd (task_step maxClients c io (k, pc))) = k.
Proof.
  unfold task_step. destruct pc as [l| | | |l|]; try reflexivity.
  - destruct (clientsCountInc maxClients c l) as [c' [l'|[|]]]; reflexivity.
  - destruct (clientsCountDec c l) as [c' [l'|]]; reflexivity.
Qed.

(** Whether two more steps of its own bring a task out of
    [clientsCountInc]: it is out, or about to read, or about to swap
    against the current counter. *)
Lemma decided_after maxClients c io k pc :
  let st := task_step maxClients c io (k, pc) in
  (deciding pc = false -> deciding (snd (snd st)) = false) /\
  (pc = InInc AtLoad ->
     deciding (snd (snd st)) = false \/ snd (snd st) = InInc (AtCas (fst st))) /\
  (forall count, pc = InInc (AtCas count) ->
     deciding (snd (snd st)) = false \/ snd (snd st) = InInc AtLoad) /\
  (pc = InInc (AtCas c) -> deciding (snd (snd st)) = false).
Proof.
  intros st. subst st. unfold task_step, clientsCountInc, clientsCountDec,
    CompareAndSwapUint32.
  repeat split.
  - destruct pc as [l| | | |[|count]|]; try discriminate; intros _; simpl;
      try reflexivity.
    + destruct io; reflexivity.
    + destruct (c =? 0); reflexivity.
    + destruct (c =? count); reflexivity.
  - intros ->. simpl. destruct (maxClients <=? c); simpl; [left|right]; reflexivity.
  - intros count ->. simpl. destruct (c =? count); simpl; [left; destruct k|right];
      reflexivity.
  - intros ->. simpl. rewrite Z.eqb_refl. destruct k; reflexivity.
Qed.

Lemma solo_step maxClients s i io k pc :
  tasks s !! i = Some (k, pc) ->
  exists pc1,
    tasks (exec maxClients s (Step i io)) !! i = Some (k, pc1) /\
    (deciding pc = false -> deciding pc1 = false) /\
    (pc = InInc AtLoad ->
       deciding pc1 = false \/
       pc1 = InInc (AtCas (clientsCount (exec maxClients s (Step i io))))) /\
    (forall count, pc = InInc (AtCas count) ->
       deciding pc1 = false \/ pc1 = InInc AtLoad) /\
    (pc = InInc (AtCas (clientsCount s)) -> deciding pc1 = false).
Proof.
  intros Hi. destruct (exec_Step_solo maxClients s i io k pc Hi) as [Hc Ht].
  pose proof (task_step_kind maxClients (clientsCount s) io k pc) as Hk.
  pose proof (decided_after maxClients (clientsCount s) io k pc) as Hd.
  cbv zeta in Hd.
  destruct (task_step maxClients (clientsCount s) io (k, pc)) as [c1 [k1 pc1]].
  cbn [fst snd] in *. subst k1. exists pc1. rewrite Hc.
  split; [exact Ht|exact Hd].
Qed.

(** A task scheduled three times in a row, with no other task in between,
    has left [clientsCountInc]: it has been admitted or rejected, whatever
    the counter and whatever it had read before. *)
Theorem clientsCountInc_decides_without_interference (maxClients : Z) (s : State)
    (i : nat) (k : TaskKind) (pc : TaskPC) (io1 io2 io3 : bool) :
  tasks s !! i = Some (k, pc) ->
  exists pc',
    tasks (run_from maxClients s [Step i io1; Step i io2; Step i io3]) !! i
      = Some (k, pc') /\
    deciding pc' = false.
Proof.
  intros Hi.
  change (run_from maxClients s [Step i io1; Step i io2; Step i io3])
    with (exec maxClients (exec maxClients (exec maxClients s (Step i io1))
                                 (Step i io2)) (Step i io3)).
  destruct (solo_step maxClients s i io1 k pc Hi) as (pc1 & H1 & A1 & B1 & C1 & _).
  destruct (solo_step maxClients _ i io2 k pc1 H1) as (pc2 & H2 & A2 & B2 & C2 & D2).
  destruct (solo_step maxClients _ i io3 k pc2 H2) as (pc3 & H3 & A3 & B3 & C3 & D3).
  exists pc3. split; [exact H3|].
  destruct (deciding pc) eqn:Hpc; [|auto].
  destruct pc as [[|count]| | | | |]; try discriminate.
  - destruct (B1 eq_refl) as [Hd|Hd]; [auto|]. apply A3, D2. exact Hd.
  - destruct (C1 count eq_refl) as [Hd|Hd]; [auto|].
    destruct (B2 Hd) as [Hd2|Hd2]; [auto|]. apply D3. exact Hd2.
Qed.

Lemma clientsCountInc_decides_without_interference_witness :
  exists pc',
    tasks (run_from 5 (run 5 [Spawn UDPTask])
             [Step 0 false; Step 0 false; Step 0 false]) !! 0%nat
      = Some (UDPTask, pc') /\
    deciding pc' = false.
Proof.
  exact (clientsCountInc_decides_without_interference 5 (run 5 [Spawn UDPTask])
           0 UDPTask (InInc AtLoad) false false false eq_refl).
Defined.

End AdmissionMoreFacts.

(** ** More on the listener loops *)

Section ListenerMoreFacts.
Import Pipeline.

Lemma udpListener_packets e (datagrams : list bytes) (rest : list (option bytes)) :
  fst (udpListener e (map Some datagrams ++ rest))
    = map (take (Z.to_nat (MaxDNSPacketSize e - 1))) datagrams
      ++ fst (udpListener e rest).
Proof.
  induction datagrams as [|d ds IH]; [reflexivity|].
  simpl. destruct (udpListener e (map Some ds ++ rest)) as [ps status].
  simpl in *. rewrite IH. reflexivity.
Qed.

(** [udpListener] hands every datagram read before the first failed read to
    a task, in order and cut to the first [MaxDNSPacketSize - 1] bytes, and
    nothing that would arrive after the failed read. *)
Theorem udpListener_stops_at_first_error e (datagrams : list bytes)
    (rest : list (option bytes)) :
  fst (udpListener e (map Some datagrams ++ None :: rest))
    = map (take (Z.to_nat (MaxDNSPacketSize e - 1))) datagrams.
Proof. rewrite udpListener_packets. simpl. apply app_nil_r. Qed.

(** No packet [udpListener] hands to a task is longer than
    [MaxDNSPacketSize - 1] bytes; a longer datagram is not rejected but cut
    to that length. *)
Theorem udpListener_packets_bounded e (reads : list (option bytes)) :
  1 <= MaxDNSPacketSize e ->
  Forall (fun packet => len packet <= MaxDNSPacketSize e - 1)
         (fst (udpListener e reads)).
Proof.
  intros Hmax. induction reads as [|[d|] reads IH]; simpl; try constructor.
  destruct (udpListener e reads) as [ps status]. simpl in *.
  constructor; [|exact IH].
  unfold len. rewrite length_take. lia.
Qed.

Lemma udpListener_packets_bounded_witness :
  1 <= MaxDNSPacketSize envSmallReply /\
  Forall (fun packet => len packet <= MaxDNSPacketSize envSmallReply - 1)
         (fst (udpListener envSmallReply
                 [Some (examplePacket x01 5000); Some exampleQuery; None])).
Proof.
  assert (H : 1 <= MaxDNSPacketSize envSmallReply) by (vm_compute; discriminate).
  split; [exact H|].
  exact (udpListener_packets_bounded envSmallReply
           [Some (examplePacket x01 5000); Some exampleQuery; None] H).
Defined.

(** [tcpListener] hands exactly the connections that [Accept] returned to
    tasks, in the order they were accepted; a failed [Accept] is skipped
    and loses no connection accepted before or after it. *)
Theorem tcpListener_serves_every_accepted_connection (Conn : Type)
    (accepts : list (option Conn)) :
  fst (tcpListener accepts) = omap id accepts.
Proof.
  induction accepts as [|[clientPc|] accepts IH]; [reflexivity| |exact IH].
  simpl. destruct (tcpListener accepts) as [conns status]. simpl in *.
  rewrite IH. reflexivity.
Qed.

End ListenerMoreFacts.
